(** * The tunnelling gateway's data path

    A shallow embedding of the protocol sniffer and the three header
    decoders (Shadowsocks, VLESS, Trojan) of [protocols.js], of
    [arrayBufferToHex] from [utils.js], of the constants of [config.js] and
    of the WebSocket/TCP bridge of [websocket.js], followed by the
    properties the specification states about them.

    Conventions.  An [ArrayBuffer] is a list of bytes.  A JavaScript number
    that indexes a buffer is a [number]: a natural number in [N], or [NaN],
    the value of [undefined] in arithmetic.  A JavaScript string is a Rocq
    [string] holding its UTF-8 encoding.  A function that can raise returns
    a [completion].  The asynchronous functions of [websocket.js] are
    functions from what the outside world does (the client's chunks, the
    remote ends, the ready-state of the WebSocket at the moments it is read)
    to the list of effects they have on it. *)

From Stdlib Require Import List NArith String Ascii Strings.Byte Bool Lia.
From Stdlib Require DecimalString HexadecimalString.
Import ListNotations.
Open Scope N_scope.

(** ** JavaScript values *)

Definition ArrayBuffer := list byte.

Definition byteLength (buffer : ArrayBuffer) : N := N.of_nat (List.length buffer).

Inductive number := Num (n : N) | NaN.

Coercion Num : N >-> number.

(** An element read out of a typed array: [None] is [undefined]. *)
Definition element := option N.

(** [ToNumber] on an element: [undefined] becomes [NaN]. *)
Definition ToNumber (x : element) : number :=
  match x with Some n => Num n | None => NaN end.

Definition js_add (a b : number) : number :=
  match a, b with
  | Num x, Num y => Num (x + y)
  | _, _ => NaN
  end.

Infix "+'" := js_add (at level 50, left associativity).

(** [ToIntegerOrInfinity]: [NaN] becomes [0]. *)
Definition ToIntegerOrInfinity (x : number) : N :=
  match x with Num n => n | NaN => 0 end.

(** [x === n] for an element [x] and a numeric literal [n]. *)
Definition strict_eq (x : element) (n : N) : bool :=
  match x with Some m => m =? n | None => false end.

Inductive exn :=
| RangeError
| Error (message : string)
| WriteRejected.             (* the rejection of [writer.write] *)

Inductive completion (A : Type) :=
| Normal (a : A)
| Throw (e : exn).

Arguments Normal {A} a.
Arguments Throw {A} e.

Definition bind {A B} (c : completion A) (k : A -> completion B) : completion B :=
  match c with
  | Normal a => k a
  | Throw e => Throw e
  end.

Notation "x <- c ;; k" := (bind c (fun x => k))
  (at level 61, c at next level, right associativity).

(** ** Buffers, views and strings *)

(** [buffer.slice(begin, end)] for non-negative arguments: both ends are
    clamped to the buffer, and an end before the begin gives an empty
    buffer. *)
Definition slice (buffer : ArrayBuffer) (begin end_ : number) : ArrayBuffer :=
  let b := ToIntegerOrInfinity begin in
  let e := ToIntegerOrInfinity end_ in
  firstn (N.to_nat (e - b)) (skipn (N.to_nat b) buffer).

(** [buffer.slice(begin)]. *)
Definition slice_from (buffer : ArrayBuffer) (begin : number) : ArrayBuffer :=
  skipn (N.to_nat (ToIntegerOrInfinity begin)) buffer.

(** [new Uint8Array(buffer)[i]]. *)
Definition Uint8Array_get (buffer : ArrayBuffer) (i : N) : element :=
  option_map Byte.to_N (nth_error buffer (N.to_nat i)).

(** [new DataView(buffer).getUint8(i)]: raises outside the view. *)
Definition getUint8 (buffer : ArrayBuffer) (i : N) : completion N :=
  match nth_error buffer (N.to_nat i) with
  | Some b => Normal (Byte.to_N b)
  | None => Throw RangeError
  end.

(** [new DataView(buffer).getUint16(i)]: big-endian, raises unless both bytes
    lie in the view. *)
Definition getUint16 (buffer : ArrayBuffer) (i : N) : completion N :=
  match nth_error buffer (N.to_nat i), nth_error buffer (N.to_nat (i + 1)) with
  | Some hi, Some lo => Normal (256 * Byte.to_N hi + Byte.to_N lo)
  | _, _ => Throw RangeError
  end.

(** [n.toString()] and [n.toString(16)]. *)
Definition toString10 (n : N) : string :=
  DecimalString.NilZero.string_of_uint (N.to_uint n).

Definition toString16 (n : N) : string :=
  HexadecimalString.NilZero.string_of_uint (N.to_hex_uint n).

(** The text a template literal gives an element. *)
Definition show (x : element) : string :=
  match x with Some n => toString10 n | None => "undefined" end.

(** [s.padStart(targetLength, c)] for a one-character pad [c]. *)
Definition padStart (s : string) (targetLength : nat) (c : ascii) : string :=
  string_of_list_ascii (repeat c (targetLength - String.length s)) ++ s.

(** [new Uint8Array(buffer).join(sep)]. *)
Definition Uint8Array_join (sep : string) (buffer : ArrayBuffer) : string :=
  String.concat sep (map (fun x => toString10 (Byte.to_N x)) buffer).

(** ** [TextDecoder.decode]

    The platform's UTF-8 decoder with its default options: a leading byte
    order mark is dropped, well-formed sequences are kept, and every maximal
    ill-formed part is replaced by U+FFFD (bytes EF BF BD). *)

Definition replacement : list byte := [xef; xbf; xbd].

Definition in_range (lo hi : N) (b : byte) : bool :=
  (lo <=? Byte.to_N b) && (Byte.to_N b <=? hi).

(** The decoder's step on a byte read with no sequence pending; [k] continues
    on the rest of the input with the pending bytes, the number of bytes still
    needed and the bounds of the next byte. *)
Definition utf8_lead (b : byte) (k : list byte -> nat -> N -> N -> list byte)
  : list byte :=
  if in_range 0x00 0x7f b then b :: k [] 0%nat 0x80 0xbf
  else if in_range 0xc2 0xdf b then k [b] 1%nat 0x80 0xbf
  else if in_range 0xe0 0xe0 b then k [b] 2%nat 0xa0 0xbf
  else if in_range 0xed 0xed b then k [b] 2%nat 0x80 0x9f
  else if in_range 0xe1 0xef b then k [b] 2%nat 0x80 0xbf
  else if in_range 0xf0 0xf0 b then k [b] 3%nat 0x90 0xbf
  else if in_range 0xf4 0xf4 b then k [b] 3%nat 0x80 0x8f
  else if in_range 0xf1 0xf3 b then k [b] 3%nat 0x80 0xbf
  else replacement ++ k [] 0%nat 0x80 0xbf.

Fixpoint utf8_run (input pending : list byte) (needed : nat) (lower upper : N)
  : list byte :=
  match input with
  | [] => match needed with O => [] | S _ => replacement end
  | b :: rest =>
      match needed with
      | O => utf8_lead b (utf8_run rest)
      | S n =>
          if in_range lower upper b then
            match n with
            | O => pending ++ b :: utf8_run rest [] 0%nat 0x80 0xbf
            | S _ => utf8_run rest (pending ++ [b]) n 0x80 0xbf
            end
          else replacement ++ utf8_lead b (utf8_run rest)
      end
  end.

Definition strip_bom (input : list byte) : list byte :=
  match input with
  | xef :: xbb :: xbf :: rest => rest
  | _ => input
  end.

Definition TextDecoder_decode (buffer : ArrayBuffer) : string :=
  string_of_list_byte (utf8_run (strip_bom buffer) [] 0%nat 0x80 0xbf).

(** [!s] for a string. *)
Definition is_empty (s : string) : bool :=
  match s with EmptyString => true | String _ _ => false end.

(** ** Regular expressions

    The one pattern of [protocols.js] is a sequence of single-character
    atoms between [^] and [$], tested with the [i] flag. *)

Inductive atom :=
| HexDigit               (* [0-9a-f] *)
| Lit (c : ascii)
| OneOf (cs : list ascii).

Definition to_lower (c : ascii) : ascii :=
  let n := N_of_ascii c in
  if (65 <=? n) && (n <=? 90) then ascii_of_N (n + 32) else c.

Definition is_hex_digit (c : ascii) : bool :=
  let n := N_of_ascii c in
  ((48 <=? n) && (n <=? 57)) || ((97 <=? n) && (n <=? 102)).

Definition atom_matches (a : atom) (c : ascii) : bool :=
  let c := to_lower c in
  match a with
  | HexDigit => is_hex_digit c
  | Lit d => Ascii.eqb (to_lower d) c
  | OneOf ds => existsb (fun d => Ascii.eqb (to_lower d) c) ds
  end.

(** [/^...$/i.test(s)]. *)
Fixpoint regex_test (pattern : list atom) (s : string) : bool :=
  match pattern, s with
  | [], EmptyString => true
  | a :: pattern', String c s' => atom_matches a c && regex_test pattern' s'
  | _, _ => false
  end.

(** [/^[0-9a-f]{8}-[0-9a-f]{4}-4[0-9a-f]{3}-[89ab][0-9a-f]{3}-[0-9a-f]{12}$/i] *)
Definition uuid_v4_pattern : list atom :=
  repeat HexDigit 8 ++ [Lit "-"] ++
  repeat HexDigit 4 ++ [Lit "-"; Lit "4"] ++
  repeat HexDigit 3 ++ [Lit "-"; OneOf ["8"; "9"; "a"; "b"]%char] ++
  repeat HexDigit 3 ++ [Lit "-"] ++
  repeat HexDigit 12.

(** ** [config.js] *)

Definition PROTOCOLS : list string := ["trojan"; "vless"; "ss"]%string.
Definition DNS_SERVER_ADDRESS : string := "8.8.8.8".
Definition DNS_SERVER_PORT : N := 53.
Definition WS_READY_STATE_OPEN : N := 1.
Definition WS_READY_STATE_CLOSING : N := 2.

(** ** [utils.js] *)

Definition arrayBufferToHex (buffer : ArrayBuffer) : string :=
  String.concat ""
    (map (fun x => padStart (toString16 (Byte.to_N x)) 2 "0") buffer).

(** ** [protocols.js]: the sniffer *)

Definition protocolSniffer (buffer : ArrayBuffer) : option string :=
  let horse :=
    if 62 <=? byteLength buffer then
      let horseDelimiter := slice buffer 56 60 in
      strict_eq (Uint8Array_get horseDelimiter 0) 0x0d &&
      strict_eq (Uint8Array_get horseDelimiter 1) 0x0a &&
      (strict_eq (Uint8Array_get horseDelimiter 2) 0x01 ||
       strict_eq (Uint8Array_get horseDelimiter 2) 0x03 ||
       strict_eq (Uint8Array_get horseDelimiter 2) 0x7f) &&
      (strict_eq (Uint8Array_get horseDelimiter 3) 0x01 ||
       strict_eq (Uint8Array_get horseDelimiter 3) 0x03 ||
       strict_eq (Uint8Array_get horseDelimiter 3) 0x04)
    else false in
  if horse then nth_error PROTOCOLS 0
  else
    let flashDelimiter := slice buffer 1 17 in
    if regex_test uuid_v4_pattern (arrayBufferToHex flashDelimiter)
    then nth_error PROTOCOLS 1
    else nth_error PROTOCOLS 2.

(** ** [protocols.js]: the header decoders *)

(** The object a decoder returns on success.  A field the decoder leaves
    out reads as [undefined]: [None]. *)
Record Header := {
  addressRemote : string;
  addressType : element;
  portRemote : N;
  rawClientData : ArrayBuffer;
  version : option ArrayBuffer;
  isUDP : bool
}.

(** A decoder's result: [{ hasError: true, message }] or a header with
    [hasError: false]. *)
Inductive ProtocolHeader :=
| HasError (message : string)
| NoError (h : Header).

(** The loop [for (let i = 0; i < 8; i++) ipv6.push(dataView.getUint16(i * 2).toString(16))]
    from index [i] on, with [count] rounds left. *)
Fixpoint ipv6_groups (dataView : ArrayBuffer) (i : N) (count : nat)
  : completion (list string) :=
  match count with
  | O => Normal []
  | S count' =>
      g <- getUint16 dataView (i * 2) ;;
      gs <- ipv6_groups dataView (N.succ i) count' ;;
      Normal (toString16 g :: gs)
  end.

Definition readSsHeader (ssBuffer : ArrayBuffer) : completion ProtocolHeader :=
  addressType <- getUint8 ssBuffer 0 ;;
  let addressValueIndex : number := 1 in
  let finish (addressLength addressValueIndex : number) (addressValue : string) :=
    if is_empty addressValue then
      Normal (HasError ("Destination address empty for SS, address type: "
                        ++ toString10 addressType))
    else
      let portIndex := addressValueIndex +' addressLength in
      portRemote <- getUint16 (slice ssBuffer portIndex (portIndex +' 2)) 0 ;;
      Normal (NoError {|
        addressRemote := addressValue;
        addressType := Some addressType;
        portRemote := portRemote;
        rawClientData := slice_from ssBuffer (portIndex +' 2);
        version := None;
        isUDP := portRemote =? 53 |}) in
  if addressType =? 1 then
    let addressLength : number := 4 in
    finish addressLength addressValueIndex
      (Uint8Array_join "."
         (slice ssBuffer addressValueIndex (addressValueIndex +' addressLength)))
  else if addressType =? 3 then
    let addressLength :=
      ToNumber (Uint8Array_get
                  (slice ssBuffer addressValueIndex (addressValueIndex +' 1)) 0) in
    let addressValueIndex := addressValueIndex +' 1 in
    finish addressLength addressValueIndex
      (TextDecoder_decode
         (slice ssBuffer addressValueIndex (addressValueIndex +' addressLength)))
  else if addressType =? 4 then
    let addressLength : number := 16 in
    let dataView :=
      slice ssBuffer addressValueIndex (addressValueIndex +' addressLength) in
    ipv6 <- ipv6_groups dataView 0 8 ;;
    finish addressLength addressValueIndex (String.concat ":" ipv6)
  else
    Normal (HasError ("Invalid addressType for SS: " ++ toString10 addressType)).

Definition readFlashHeader (buffer : ArrayBuffer) : completion ProtocolHeader :=
  let version := slice buffer 0 1 in
  let optLength := ToNumber (Uint8Array_get (slice buffer 17 18) 0) in
  let cmd := Uint8Array_get (slice buffer (18 +' optLength) (18 +' optLength +' 1)) 0 in
  let continue (isUDP : bool) :=
    let portIndex := 18 +' optLength +' 1 in
    portRemote <- getUint16 (slice buffer portIndex (portIndex +' 2)) 0 ;;
    let addressIndex := portIndex +' 2 in
    let addressType := Uint8Array_get (slice buffer addressIndex (addressIndex +' 1)) 0 in
    let addressIndex := addressIndex +' 1 in
    let finish (addressLength addressIndex : number) (addressValue : string) :=
      if is_empty addressValue then
        Normal (HasError ("Empty VLESS address, type: " ++ show addressType))
      else
        Normal (NoError {|
          addressRemote := addressValue;
          addressType := addressType;
          portRemote := portRemote;
          rawClientData := slice_from buffer (addressIndex +' addressLength);
          version :=
            Some [match version with v :: _ => v | [] => x00 end; x00];
          isUDP := isUDP |}) in
    if strict_eq addressType 1 then
      let addressLength : number := 4 in
      finish addressLength addressIndex
        (Uint8Array_join "."
           (slice buffer addressIndex (addressIndex +' addressLength)))
    else if strict_eq addressType 2 then
      let addressLength :=
        ToNumber (Uint8Array_get (slice buffer addressIndex (addressIndex +' 1)) 0) in
      let addressIndex := addressIndex +' 1 in
      finish addressLength addressIndex
        (TextDecoder_decode
           (slice buffer addressIndex (addressIndex +' addressLength)))
    else if strict_eq addressType 3 then
      let addressLength : number := 16 in
      let dataView := slice buffer addressIndex (addressIndex +' addressLength) in
      ipv6 <- ipv6_groups dataView 0 8 ;;
      finish addressLength addressIndex ("[" ++ String.concat ":" ipv6 ++ "]")%string
    else
      Normal (HasError ("Invalid VLESS addressType: " ++ show addressType)) in
  if strict_eq cmd 1 then continue false
  else if strict_eq cmd 2 then continue true
  else Normal (HasError ("Unsupported VLESS command: " ++ show cmd)).

Definition readHorseHeader (buffer : ArrayBuffer) : completion ProtocolHeader :=
  let dataBuffer := slice_from buffer 58 in
  if byteLength dataBuffer <? 6 then
    Normal (HasError "Invalid Trojan request data")
  else
    cmd <- getUint8 dataBuffer 0 ;;
    let continue (isUDP : bool) :=
      addressType <- getUint8 dataBuffer 1 ;;
      let addressValueIndex : number := 2 in
      let finish (addressLength addressValueIndex : number) (addressValue : string) :=
        if is_empty addressValue then
          Normal (HasError ("Empty Trojan address, type: " ++ toString10 addressType))
        else
          let portIndex := addressValueIndex +' addressLength in
          portRemote <- getUint16 (slice dataBuffer portIndex (portIndex +' 2)) 0 ;;
          Normal (NoError {|
            addressRemote := addressValue;
            addressType := None;
            portRemote := portRemote;
            rawClientData := slice_from dataBuffer (portIndex +' 4);
            version := None;
            isUDP := isUDP |}) in
      if addressType =? 1 then
        let addressLength : number := 4 in
        finish addressLength addressValueIndex
          (Uint8Array_join "."
             (slice dataBuffer addressValueIndex (addressValueIndex +' addressLength)))
      else if addressType =? 3 then
        let addressLength :=
          ToNumber (Uint8Array_get
                      (slice dataBuffer addressValueIndex (addressValueIndex +' 1)) 0) in
        let addressValueIndex := addressValueIndex +' 1 in
        finish addressLength addressValueIndex
          (TextDecoder_decode
             (slice dataBuffer addressValueIndex (addressValueIndex +' addressLength)))
      else if addressType =? 4 then
        let addressLength : number := 16 in
        let dataView :=
          slice dataBuffer addressValueIndex (addressValueIndex +' addressLength) in
        ipv6 <- ipv6_groups dataView 0 8 ;;
        finish addressLength addressValueIndex
          ("[" ++ String.concat ":" ipv6 ++ "]")%string
      else
        Normal (HasError ("Invalid Trojan addressType: " ++ toString10 addressType)) in
    if cmd =? 3 then continue true
    else if negb (cmd =? 1) then
      Normal (HasError ("Unsupported Trojan command: " ++ toString10 cmd))
    else continue false.


(** ** [websocket.js]

    What the tunnel does to the outside world is recorded as a list of
    effects, in order.  Console output is left out.  The outside world is
    given as data: for every connection, what its remote end does. *)

(** The [port] option of [connect]: [portRemote] is a number, a port taken
    from the upstream hint is a string. *)
Inductive port_arg :=
| PortNumber (n : N)
| PortString (s : string).

(** A socket, named by the options [connect] was given. *)
Record socket := { hostname : string; port : port_arg }.

Inductive effect :=
| Connect (s : socket)                      (* connect({ hostname, port }) *)
| StoreSocket (s : socket)                  (* remoteSocket.value = tcpSocket *)
| SocketWrite (s : socket) (data : ArrayBuffer)  (* writer.write(data) *)
| SocketClose (s : socket)                  (* tcpSocket.close(): called nowhere below *)
| WsSend (data : ArrayBuffer)               (* webSocket.send(data) *)
| WsClose                                   (* webSocket.close() *)
| ControllerError (reason : string).        (* controller.error(reason) *)

Inductive remote_end := EndClosed | EndErrored.

(** One remote end: whether the first write to it resolves, the chunks its
    readable side delivers (each with the WebSocket ready-state found when it
    arrives), how the readable side ends, and the WebSocket ready-state found
    by the handlers that run after that end. *)
Record remote := {
  write_ok : bool;
  incoming : list (N * ArrayBuffer);
  ending : remote_end;
  readyState_at_end : N
}.

Definition safeCloseWebSocket (readyState : N) : list effect :=
  if (readyState =? WS_READY_STATE_OPEN) || (readyState =? WS_READY_STATE_CLOSING)
  then [WsClose]
  else [].

(** [new Blob([header, chunk]).arrayBuffer()]. *)
Definition Blob (parts : list ArrayBuffer) : ArrayBuffer := List.concat parts.

(** The variables the sink of [remoteSocketToWS] closes over, and whether
    [controller.error] has been called. *)
Record bridge := {
  header : option ArrayBuffer;
  hasIncomingData : bool;
  errored : bool
}.

(** [write(chunk, controller)] of the sink in [remoteSocketToWS].  A call of
    [webSocket.send] is recorded whatever the ready-state is. *)
Definition bridge_write (readyState : N) (chunk : ArrayBuffer) (st : bridge)
  : list effect * bridge :=
  let hasIncomingData := true in
  let '(e1, errored) :=
    if negb (readyState =? WS_READY_STATE_OPEN)
    then ([ControllerError "WebSocket is not open, maybe closed"], true)
    else ([], errored st) in
  match header st with
  | Some h =>
      (e1 ++ [WsSend (Blob [h; chunk])],
       {| header := None; hasIncomingData := hasIncomingData; errored := errored |})
  | None =>
      (e1 ++ [WsSend chunk],
       {| header := None; hasIncomingData := hasIncomingData; errored := errored |})
  end.

(** [readable.pipeTo(sink)]: chunks are written in order until the sink is
    errored. *)
Fixpoint bridge_pipe (chunks : list (N * ArrayBuffer)) (st : bridge)
  : list effect * bridge :=
  match chunks with
  | [] => ([], st)
  | (readyState, chunk) :: rest =>
      let '(es, st') := bridge_write readyState chunk st in
      if errored st' then (es, st')
      else let '(es', st'') := bridge_pipe rest st' in (es ++ es', st'')
  end.

(** [retry] is the closure to call, given as the effects of calling it. *)
Definition remoteSocketToWS (r : remote) (responseHeader : option ArrayBuffer)
    (retry : option (list effect)) : list effect :=
  let '(es, st) :=
    bridge_pipe (incoming r)
      {| header := responseHeader; hasIncomingData := false; errored := false |} in
  let rejected :=
    errored st || match ending r with EndErrored => true | EndClosed => false end in
  es ++
  (if rejected then safeCloseWebSocket (readyState_at_end r) else []) ++
  (if negb (hasIncomingData st) then
     match retry with Some again => again | None => [] end
   else []).

(** [s.split(/[:=-]/)]. *)
Definition is_hint_delimiter (c : ascii) : bool :=
  (Ascii.eqb c ":" || Ascii.eqb c "=" || Ascii.eqb c "-")%char.

Fixpoint split_from (s piece : string) : list string :=
  match s with
  | EmptyString => [piece]
  | String c s' =>
      if is_hint_delimiter c then piece :: split_from s' ""
      else split_from s' (piece ++ String c "")
  end.

Definition split (s : string) : list string := split_from s "".

(** [connectAndWrite(address, port)]: the effects, and whether the write
    resolved. *)
Definition connectAndWrite (rawClientData : ArrayBuffer) (address : string)
    (port : port_arg) (r : remote) : list effect * bool :=
  let tcpSocket := {| hostname := address; port := port |} in
  ([Connect tcpSocket; StoreSocket tcpSocket; SocketWrite tcpSocket rawClientData],
   write_ok r).

(** [r1] is the remote end of the first connection, [r2] that of the
    connection [retry] makes.  The [finally] handler on [tcpSocket.closed]
    is placed after the bridge of the retried connection. *)
Definition handleTCPOutBound (addressRemote : string) (portRemote : N)
    (rawClientData : ArrayBuffer) (responseHeader : option ArrayBuffer)
    (prxIP : string) (r1 r2 : remote) : list effect :=
  let retry :=
    let parts := split prxIP in
    let proxyAddress := nth_error parts 0 in
    let proxyPort := nth_error parts 1 in
    let '(es, resolved) :=
      connectAndWrite rawClientData
        (match proxyAddress with
         | Some a => if is_empty a then addressRemote else a
         | None => addressRemote
         end)
        (match proxyPort with
         | Some p => if is_empty p then PortNumber portRemote else PortString p
         | None => PortNumber portRemote
         end)
        r2 in
    if resolved then
      es ++ remoteSocketToWS r2 responseHeader None
         ++ safeCloseWebSocket (readyState_at_end r2)
    else es in
  let '(es, resolved) :=
    connectAndWrite rawClientData addressRemote (PortNumber portRemote) r1 in
  if resolved then es ++ remoteSocketToWS r1 responseHeader (Some retry)
  else es.

(** [write(chunk)] of the sink in [handleUDPOutbound]. *)
Definition udp_write (readyState : N) (chunk : ArrayBuffer)
    (protocolHeader : option ArrayBuffer) : list effect * option ArrayBuffer :=
  if readyState =? WS_READY_STATE_OPEN then
    match protocolHeader with
    | Some h => ([WsSend (Blob [h; chunk])], None)
    | None => ([WsSend chunk], None)
    end
  else ([], protocolHeader).

Fixpoint udp_pipe (chunks : list (N * ArrayBuffer)) (protocolHeader : option ArrayBuffer)
  : list effect :=
  match chunks with
  | [] => []
  | (readyState, chunk) :: rest =>
      let '(es, protocolHeader') := udp_write readyState chunk protocolHeader in
      es ++ udp_pipe rest protocolHeader'
  end.

(** Whatever is raised inside is caught and only logged. *)
Definition handleUDPOutbound (targetAddress : string) (targetPort : N)
    (udpChunk : ArrayBuffer) (responseHeader : option ArrayBuffer) (r : remote)
  : list effect :=
  let tcpSocket := {| hostname := targetAddress; port := PortNumber targetPort |} in
  [Connect tcpSocket; SocketWrite tcpSocket udpChunk] ++
  (if write_ok r then udp_pipe (incoming r) responseHeader else []).

(** The variables the sink of [websocketHandler] closes over. *)
Record tunnel := {
  isDNS : bool;
  remoteSocketWrapper : option socket
}.

(** The socket the last [StoreSocket] of a trace leaves in the wrapper. *)
Fixpoint stored (es : list effect) (value : option socket) : option socket :=
  match es with
  | [] => value
  | StoreSocket s :: es' => stored es' (Some s)
  | _ :: es' => stored es' value
  end.

Definition same_protocol (protocol name : option string) : bool :=
  match protocol, name with
  | Some p, Some n => String.eqb p n
  | None, None => true
  | _, _ => false
  end.

(** The sniffer and the decoder it selects. *)
Definition readHeader (chunk : ArrayBuffer) : completion ProtocolHeader :=
  let protocol := protocolSniffer chunk in
  if same_protocol protocol (nth_error PROTOCOLS 0) then readHorseHeader chunk
  else if same_protocol protocol (nth_error PROTOCOLS 1) then readFlashHeader chunk
  else if same_protocol protocol (nth_error PROTOCOLS 2) then readSsHeader chunk
  else Throw (Error "Unknown Protocol!").

(** [write(chunk, controller)] of the sink in [websocketHandler]: the
    effects it has, how it completes, and the variables it leaves.  The call
    of [handleTCPOutBound] is not awaited: its effects are listed where it is
    called, and the wrapper is left as its last assignment leaves it.  With a
    socket stored, [writer.write(chunk)] is called on it, and [write] raises
    when that call is rejected; [r1] then tells whether it is. *)
Definition write (prxIP : string) (st : tunnel) (chunk : ArrayBuffer)
    (r1 r2 : remote) : (list effect * completion unit) * tunnel :=
  if isDNS st then
    ((handleUDPOutbound DNS_SERVER_ADDRESS DNS_SERVER_PORT chunk None r1, Normal tt), st)
  else
    match remoteSocketWrapper st with
    | Some s =>
        (([SocketWrite s chunk],
          if write_ok r1 then Normal tt else Throw WriteRejected), st)
    | None =>
        match readHeader chunk with
        | Throw e => (([], Throw e), st)
        | Normal (HasError message) => (([], Throw (Error message)), st)
        | Normal (NoError protocolHeader) =>
            let checked :=
              if isUDP protocolHeader then
                if portRemote protocolHeader =? 53 then Normal true
                else Throw (Error "UDP only supports DNS port 53")
              else Normal (isDNS st) in
            match checked with
            | Throw e => (([], Throw e), st)
            | Normal true =>
                ((handleUDPOutbound DNS_SERVER_ADDRESS DNS_SERVER_PORT chunk
                    (version protocolHeader) r1, Normal tt),
                 {| isDNS := true; remoteSocketWrapper := remoteSocketWrapper st |})
            | Normal false =>
                let es :=
                  handleTCPOutBound (addressRemote protocolHeader)
                    (portRemote protocolHeader) (rawClientData protocolHeader)
                    (version protocolHeader) prxIP r1 r2 in
                ((es, Normal tt),
                 {| isDNS := false;
                    remoteSocketWrapper := stored es (remoteSocketWrapper st) |})
            end
        end
    end.

(** One client chunk and the world around it: the WebSocket ready-state
    found if the stream is cancelled while the chunk is handled, and the
    remote ends of the connections made for it; for a chunk written to the
    socket already stored, [first_remote] is that socket's end. *)
Record step := {
  chunk : ArrayBuffer;
  readyState : N;
  first_remote : remote;
  retry_remote : remote
}.

(** [cancel(reason)] of the stream [makeReadableWebSocketStream] builds;
    [readableStreamCancel] is false until the first call. *)
Definition cancel (readableStreamCancel : bool) (readyState : N) : list effect :=
  if readableStreamCancel then [] else safeCloseWebSocket readyState.

(** [readableWebSocketStream.pipeTo(sink)]: the chunks are written in order;
    when [write] raises, the pipe cancels the stream and ends. *)
Fixpoint pipeTo (prxIP : string) (st : tunnel) (steps : list step) : list effect :=
  match steps with
  | [] => []
  | s :: rest =>
      match write prxIP st (chunk s) (first_remote s) (retry_remote s) with
      | ((es, Normal _), st') => es ++ pipeTo prxIP st' rest
      | ((es, Throw _), _) => es ++ cancel false (readyState s)
      end
  end.

(** [let remoteSocketWrapper = { value: null }; let isDNS = false;] *)
Definition start : tunnel := {| isDNS := false; remoteSocketWrapper := None |}.

Definition websocketHandler (prxIP : string) (steps : list step) : list effect :=
  pipeTo prxIP start steps.

(** * More of [utils.js] *)

From Stdlib Require Import ZArith Permutation.

(** ** [base64ToArrayBuffer] *)

(** [s.replace(/c/g, d)] for one character [c]. *)
Fixpoint replaceAll (c d : ascii) (s : string) : string :=
  match s with
  | EmptyString => EmptyString
  | String x s' => String (if Ascii.eqb x c then d else x) (replaceAll c d s')
  end.

(** [atob], the forgiving-base64 decode of the platform: ASCII whitespace is
    removed; when the length is a multiple of four, one or two [=] at the end
    are removed; a length leaving remainder one, or a character outside the
    base64 alphabet, makes it raise (here [None]); the bits are read six per
    character, and the bits left over at the end (four or two) are dropped. *)
Definition is_ascii_whitespace (c : ascii) : bool :=
  let n := N_of_ascii c in
  (n =? 9) || (n =? 10) || (n =? 12) || (n =? 13) || (n =? 32).

Definition base64_value (c : ascii) : option N :=
  let n := N_of_ascii c in
  if (65 <=? n) && (n <=? 90) then Some (n - 65)
  else if (97 <=? n) && (n <=? 122) then Some (n - 71)
  else if (48 <=? n) && (n <=? 57) then Some (n + 4)
  else if n =? 43 then Some 62
  else if n =? 47 then Some 63
  else None.

Fixpoint base64_values (data : list ascii) : option (list N) :=
  match data with
  | [] => Some []
  | c :: data' =>
      match base64_value c, base64_values data' with
      | Some v, Some vs => Some (v :: vs)
      | _, _ => None
      end
  end.

Definition byte_of (n : N) : byte :=
  match Byte.of_N n with Some b => b | None => x00 end.

Fixpoint base64_bytes (values : list N) : list byte :=
  match values with
  | a :: b :: c :: d :: rest =>
      byte_of (a * 4 + b / 16) ::
      byte_of ((b mod 16) * 16 + c / 4) ::
      byte_of ((c mod 4) * 64 + d) :: base64_bytes rest
  | [a; b; c] => [byte_of (a * 4 + b / 16); byte_of ((b mod 16) * 16 + c / 4)]
  | [a; b] => [byte_of (a * 4 + b / 16)]
  | _ => []
  end.

Definition strip_padding (data : list ascii) : list ascii :=
  match rev data with
  | c1 :: r =>
      if Ascii.eqb c1 "=" then
        match r with
        | c2 :: r' => if Ascii.eqb c2 "=" then rev r' else rev r
        | [] => rev r
        end
      else data
  | [] => data
  end.

Definition atob (data : string) : option (list byte) :=
  let data :=
    filter (fun c => negb (is_ascii_whitespace c)) (list_ascii_of_string data) in
  let data :=
    if Nat.eqb (Nat.modulo (List.length data) 4) 0 then strip_padding data
    else data in
  if Nat.eqb (Nat.modulo (List.length data) 4) 1 then None
  else option_map base64_bytes (base64_values data).

(** The exception [atob] raises. *)
Inductive DOMException := InvalidCharacterError.

Record EarlyData := {
  earlyData : option ArrayBuffer;
  error : option DOMException
}.

Definition base64ToArrayBuffer (base64Str : string) : EarlyData :=
  if is_empty base64Str then {| earlyData := None; error := None |}
  else
    let base64Str := replaceAll "_" "/" (replaceAll "-" "+" base64Str) in
    match atob base64Str with
    | Some decode => {| earlyData := Some decode; error := None |}
    | None => {| earlyData := None; error := Some InvalidCharacterError |}
    end.

(** ** [shuffleArray]

    [floor_random k n] stands for the value [Math.floor(Math.random() * n)]
    takes at the [k]-th call of [Math.random]. *)

(** [array[i] = v]; an index outside the array is not modelled ([None]). *)
Fixpoint assign {A : Type} (array : list A) (i : nat) (v : A) : option (list A) :=
  match array, i with
  | [], _ => None
  | _ :: rest, O => Some (v :: rest)
  | x :: rest, S i' => option_map (cons x) (assign rest i' v)
  end.

(** [[array[i], array[j]] = [array[j], array[i]]]: both elements are read,
    then [array[i]] and [array[j]] are assigned in that order. *)
Definition swap {A : Type} (array : list A) (i j : nat) : option (list A) :=
  match nth_error array j, nth_error array i with
  | Some aj, Some ai =>
      match assign array i aj with
      | Some array' => assign array' j ai
      | None => None
      end
  | _, _ => None
  end.

(** The loop [while (currentIndex !== 0)], at the [k]-th draw. *)
Fixpoint shuffle_from {A : Type} (floor_random : nat -> nat -> nat)
    (currentIndex k : nat) (array : list A) : option (list A) :=
  match currentIndex with
  | O => Some array
  | S currentIndex' =>
      let randomIndex := floor_random k currentIndex in
      match swap array currentIndex' randomIndex with
      | Some array' => shuffle_from floor_random currentIndex' (S k) array'
      | None => None
      end
  end.

Definition shuffleArray {A : Type} (floor_random : nat -> nat -> nat)
    (array : list A) : option (list A) :=
  shuffle_from floor_random (List.length array) 0 array.

(** ** [getPrxList] *)

(** [s.split(c)] for a one-character separator [c]. *)
Fixpoint split_on_from (c : ascii) (s piece : string) : list string :=
  match s with
  | EmptyString => [piece]
  | String x s' =>
      if Ascii.eqb x c then piece :: split_on_from c s' ""
      else split_on_from c s' (piece ++ String x "")
  end.

Definition split_on (c : ascii) (s : string) : list string := split_on_from c s "".

(** [s.trim()]: the white space and line terminators of the language, in
    UTF-8, are removed at both ends. *)
Definition white_space : list (list N) :=
  [[9]; [10]; [11]; [12]; [13]; [32]; [194; 160]; [225; 154; 128];
   [226; 128; 128]; [226; 128; 129]; [226; 128; 130]; [226; 128; 131];
   [226; 128; 132]; [226; 128; 133]; [226; 128; 134]; [226; 128; 135];
   [226; 128; 136]; [226; 128; 137]; [226; 128; 138]; [226; 128; 168];
   [226; 128; 169]; [226; 128; 175]; [226; 129; 159]; [227; 128; 128];
   [239; 187; 191]].

Fixpoint strip_prefix (p : list N) (l : list ascii) : option (list ascii) :=
  match p, l with
  | [], _ => Some l
  | n :: p', c :: l' => if N_of_ascii c =? n then strip_prefix p' l' else None
  | _ :: _, [] => None
  end.

Fixpoint strip_any (ps : list (list N)) (l : list ascii) : option (list ascii) :=
  match ps with
  | [] => None
  | p :: ps' =>
      match strip_prefix p l with
      | Some l' => Some l'
      | None => strip_any ps' l
      end
  end.

Fixpoint strip_all (fuel : nat) (ps : list (list N)) (l : list ascii) : list ascii :=
  match fuel with
  | O => l
  | S fuel' =>
      match strip_any ps l with
      | Some l' => strip_all fuel' ps l'
      | None => l
      end
  end.

Definition trim (s : string) : string :=
  let l := list_ascii_of_string s in
  let l := strip_all (List.length l) white_space l in
  let r := rev l in
  let r := strip_all (List.length r) (map (@rev N) white_space) r in
  string_of_list_ascii (rev r).

(** One entry of the proxy list. *)
Record Prx := {
  prxIP : string;
  prxPort : string;
  country : string;
  org : string
}.

(** [x || d] for a field of the destructured array. *)
Definition or_default (x : option string) (d : string) : string :=
  match x with
  | Some s => if is_empty s then d else s
  | None => d
  end.

(** The callback of [prxString.map]: [None] is [null]. *)
Definition parseEntry (entry : string) : option Prx :=
  let fields := map trim (split_on "," entry) in
  let prxIP := nth_error fields 0 in
  let prxPort := nth_error fields 1 in
  let country := nth_error fields 2 in
  let org := nth_error fields 3 in
  if is_empty (or_default prxIP "") || is_empty (or_default prxPort "") then None
  else Some {| prxIP := or_default prxIP "";
               prxPort := or_default prxPort "";
               country := or_default country "Unknown";
               org := or_default org "Unknown Org" |}.

Fixpoint filter_some {A : Type} (l : list (option A)) : list A :=
  match l with
  | [] => []
  | Some x :: l' => x :: filter_some l'
  | None :: l' => filter_some l'
  end.

(** [text.split("\n").filter(Boolean).map(...).filter(Boolean)]. *)
Definition parsePrxList (text : string) : list Prx :=
  let prxString :=
    filter (fun line => negb (is_empty line)) (split_on "010" text) in
  filter_some (map parseEntry prxString).

(** [PRX_BANK_URL(env)] of [config.js]; [None] is an [env] without the
    variable. *)
Definition PRX_BANK_URL (env : option string) : string :=
  or_default env
    "https://raw.githubusercontent.com/jaka2m/botak/refs/heads/main/cek/proxyList.txt".

(** What [fetch] and [text] do: raise, or answer with [ok] and a body. *)
Inductive fetched :=
| FetchRaises
| Response (ok : bool) (text : string).

(** [getPrxList(env)] with [cachedPrxList] as it is found and as it is left. *)
Definition getPrxList (cachedPrxList : list Prx) (env : option string)
    (fetch : string -> fetched) : completion (list Prx) * list Prx :=
  match cachedPrxList with
  | _ :: _ => (Normal cachedPrxList, cachedPrxList)
  | [] =>
      let prxBankUrl := PRX_BANK_URL env in
      if is_empty prxBankUrl then
        (Throw (Error "No proxy bank URL provided!"), cachedPrxList)
      else
        match fetch prxBankUrl with
        | Response true text =>
            let cachedPrxList := parsePrxList text in
            (Normal cachedPrxList, cachedPrxList)
        | Response false _ => (Normal [], cachedPrxList)
        | FetchRaises => (Normal [], cachedPrxList)
        end
  end.
(** * Reference definitions from the specification *)

(** The rendering rule 2 of the specification names: the sixteen bytes as
    lowercase hex, grouped 8-4-4-4-12. *)
Definition uuid_grouped_hex (bytes : ArrayBuffer) : string :=
  (arrayBufferToHex (slice bytes 0 4) ++ "-" ++
   arrayBufferToHex (slice bytes 4 6) ++ "-" ++
   arrayBufferToHex (slice bytes 6 8) ++ "-" ++
   arrayBufferToHex (slice bytes 8 10) ++ "-" ++
   arrayBufferToHex (slice bytes 10 16))%string.

Definition sample_uuid : ArrayBuffer :=
  [x12; x34; x56; x78; x9a; xbc; x4d; xef; x80; x12; x34; x56; x78; x9a; xbc; xde].

(** Scenario 3 of the specification:
    [00 | uuid | 00 | 01 | 01 BB | 02 | 03 66 6F 6F | 50 41 59]. *)
Definition vless_scenario_frame : ArrayBuffer :=
  [x00] ++ sample_uuid ++
  [x00; x01; x01; xbb; x02; x03; x66; x6f; x6f; x50; x41; x59].


(** ** Header sizes, from the wire formats of section 6 *)

Definition byte_at (frame : ArrayBuffer) (i : N) : N :=
  match nth_error frame (N.to_nat i) with
  | Some b => Byte.to_N b
  | None => 0
  end.

(** The size of the address field at offset [i] for the tag [atyp]: four
    bytes for IPv4 (tag [1] in every protocol), a length byte and that many
    bytes for a domain (tag [domain]), sixteen bytes for IPv6. *)
Definition address_field_size (domain atyp : N) (frame : ArrayBuffer) (i : N) : N :=
  if atyp =? 1 then 4
  else if atyp =? domain then 1 + byte_at frame i
  else 16.

Inductive decoder := Shadowsocks | Vless | Trojan.

(** Shadowsocks: [atyp(1) | addr | port(2)].
    VLESS: [version(1) | uuid(16) | optLen(1) | opts(optLen) | cmd(1) | port(2) | atyp(1) | addr].
    Trojan: [hash(56) | CRLF(2) | cmd(1) | atyp(1) | addr | port(2) | CRLF(2)]. *)
Definition header_size (d : decoder) (frame : ArrayBuffer) : N :=
  match d with
  | Shadowsocks =>
      1 + address_field_size 3 (byte_at frame 0) frame 1 + 2
  | Vless =>
      let optLen := byte_at frame 17 in
      1 + 16 + 1 + optLen + 1 + 2 + 1 +
      address_field_size 2 (byte_at frame (21 + optLen)) frame (22 + optLen)
  | Trojan =>
      56 + 2 + 1 + 1 + address_field_size 3 (byte_at frame 59) frame 60 + 2 + 2
  end.

Definition decode (d : decoder) (frame : ArrayBuffer) : completion ProtocolHeader :=
  match d with
  | Shadowsocks => readSsHeader frame
  | Vless => readFlashHeader frame
  | Trojan => readHorseHeader frame
  end.

(** ** Address renderings and the port *)

(** A big-endian 16-bit value. *)
Definition u16 (hi lo : byte) : N := 256 * Byte.to_N hi + Byte.to_N lo.

(** [a.b.c.d]. *)
Definition ipv4_text (a b c d : byte) : string :=
  toString10 (Byte.to_N a) ++ "." ++ toString10 (Byte.to_N b) ++ "." ++
  toString10 (Byte.to_N c) ++ "." ++ toString10 (Byte.to_N d).

Fixpoint words16 (bytes : list byte) : list N :=
  match bytes with
  | hi :: lo :: rest => u16 hi lo :: words16 rest
  | _ => []
  end.

(** Colon-separated lowercase hex groups. *)
Definition ipv6_text (addr : list byte) : string :=
  String.concat ":" (map toString16 (words16 addr)).

(** Scenario 1 of the specification: [01 | 0A 00 00 01 | 00 50 | 48 49]. *)
Definition ss_scenario_frame : ArrayBuffer :=
  [x01; x0a; x00; x00; x01; x00; x50; x48; x49].

(** ** The tunnel, as the specification describes it *)

(** The frames a trace sends to the client, the connections it opens and
    the writes it makes to them. *)
Fixpoint frames (t : list effect) : list ArrayBuffer :=
  match t with
  | [] => []
  | WsSend data :: t' => data :: frames t'
  | _ :: t' => frames t'
  end.

Fixpoint connects (t : list effect) : list socket :=
  match t with
  | [] => []
  | Connect s :: t' => s :: connects t'
  | _ :: t' => connects t'
  end.

Fixpoint socket_writes (t : list effect) : list (socket * ArrayBuffer) :=
  match t with
  | [] => []
  | SocketWrite s data :: t' => (s, data) :: socket_writes t'
  | _ :: t' => socket_writes t'
  end.

(** The prelude, when there is one, is the prefix of the first payload and
    of no other. *)
Definition prelude_once (prelude : option ArrayBuffer) (payloads : list ArrayBuffer)
  : list ArrayBuffer :=
  match prelude, payloads with
  | Some p, first :: others => (p ++ first)%list :: others
  | _, _ => payloads
  end.

(** The chunks the TCP bridge takes from a remote end: all of them up to the
    first that finds the WebSocket not open. *)
Fixpoint relayed (chunks : list (N * ArrayBuffer)) : list ArrayBuffer :=
  match chunks with
  | [] => []
  | (readyState, chunk) :: rest =>
      chunk :: (if readyState =? WS_READY_STATE_OPEN then relayed rest else [])
  end.

(** The payloads of a TCP tunnel: those of the first connection, or, when it
    delivered nothing, those of the retried one. *)
Definition tcp_payloads (r1 r2 : remote) : list ArrayBuffer :=
  if write_ok r1 then
    match incoming r1 with
    | [] => if write_ok r2 then relayed (incoming r2) else []
    | _ :: _ => relayed (incoming r1)
    end
  else [].

(** The payloads of one DNS exchange: the chunks that find the WebSocket
    open. *)
Definition dns_payloads (r : remote) : list ArrayBuffer :=
  if write_ok r then
    map snd (filter (fun c => fst c =? WS_READY_STATE_OPEN) (incoming r))
  else [].


(** Whether a remote end took the write and then delivered no chunk, be it
    an empty one. *)
Definition delivered_nothing (r : remote) : bool :=
  write_ok r && match incoming r with [] => true | _ :: _ => false end.

(** The upstream hint [host?[:=-]port?]: the host is what precedes the
    first delimiter, the port what lies between the first and the second. *)
Fixpoint before_delimiter (s : string) : string :=
  match s with
  | EmptyString => EmptyString
  | String c s' =>
      if is_hint_delimiter c then EmptyString else String c (before_delimiter s')
  end.

Fixpoint after_delimiter (s : string) : option string :=
  match s with
  | EmptyString => None
  | String c s' => if is_hint_delimiter c then Some s' else after_delimiter s'
  end.

Definition hint_host (hint : string) : string := before_delimiter hint.

Definition hint_port (hint : string) : string :=
  match after_delimiter hint with
  | Some s => before_delimiter s
  | None => EmptyString
  end.

(** [(hintHost || addrText, hintPort || port)]. *)
Definition retry_target (hint addrText : string) (port : N) : socket :=
  {| hostname := if is_empty (hint_host hint) then addrText else hint_host hint;
     port := if is_empty (hint_port hint) then PortNumber port
             else PortString (hint_port hint) |}.

(** Scenario 5: a Trojan frame asking for UDP to 1.2.3.4:443. *)
Definition trojan_udp_frame : ArrayBuffer :=
  repeat x00 56 ++
  [x0d; x0a; x03; x01; x01; x02; x03; x04; x01; xbb; x0d; x0a].

(** Scenario 2: a Shadowsocks frame for 8.8.8.8:53 and a one-byte query. *)
Definition ss_dns_frame : ArrayBuffer :=
  [x01; x08; x08; x08; x08; x00; x35; x51].

(** A remote end that accepts the write and then ends without a byte. *)
Definition silent (how : remote_end) (readyState : N) : remote :=
  {| write_ok := true; incoming := []; ending := how;
     readyState_at_end := readyState |}.

(** Effects on the WebSocket side only. *)
Definition on_websocket (e : effect) : Prop :=
  match e with
  | WsSend _ | WsClose | ControllerError _ => True
  | _ => False
  end.


(** A remote end that accepts the write, answers [data] while the WebSocket
    is open, and ends. *)
Definition answering (data : ArrayBuffer) : remote :=
  {| write_ok := true; incoming := [(WS_READY_STATE_OPEN, data)];
     ending := EndClosed; readyState_at_end := WS_READY_STATE_OPEN |}.


(** A client chunk met by an open WebSocket. *)
Definition one_step (c : ArrayBuffer) (r1 r2 : remote) : step :=
  {| chunk := c; readyState := WS_READY_STATE_OPEN;
     first_remote := r1; retry_remote := r2 |}.

(** The chunks the readable side of a remote end delivers. *)
Definition sent_by (r : remote) : list ArrayBuffer := map snd (incoming r).

(** The client chunks whose write to the remote socket is called: all up to
    and including the first whose write is rejected; and the step of that
    write. *)
Fixpoint attempted (steps : list step) : list step :=
  match steps with
  | [] => []
  | x :: rest => x :: (if write_ok (first_remote x) then attempted rest else [])
  end.

Fixpoint rejected_at (steps : list step) : option step :=
  match steps with
  | [] => None
  | x :: rest => if write_ok (first_remote x) then rejected_at rest else Some x
  end.

(** The socket of the configured DNS server. *)
Definition dns_socket : socket :=
  {| hostname := DNS_SERVER_ADDRESS; port := PortNumber DNS_SERVER_PORT |}.

(** ** Reading hex text back *)

Definition hex_value (c : ascii) : option N :=
  let n := N_of_ascii c in
  if (48 <=? n) && (n <=? 57) then Some (n - 48)
  else if (97 <=? n) && (n <=? 102) then Some (n - 87)
  else None.

Fixpoint hexToBytes (s : string) : option (list byte) :=
  match s with
  | EmptyString => Some []
  | String c1 (String c2 s') =>
      match hex_value c1, hex_value c2, hexToBytes s' with
      | Some h, Some l, Some bytes =>
          match Byte.of_N (16 * h + l) with
          | Some b => Some (b :: bytes)
          | None => None
          end
      | _, _, _ => None
      end
  | String _ EmptyString => None
  end.

(** ** Base64, as a client writes early data *)

Fixpoint base64_sextets (bytes : list byte) : list N :=
  match bytes with
  | a :: b :: c :: rest =>
      Byte.to_N a / 4 ::
      (Byte.to_N a mod 4) * 16 + Byte.to_N b / 16 ::
      (Byte.to_N b mod 16) * 4 + Byte.to_N c / 64 ::
      Byte.to_N c mod 64 :: base64_sextets rest
  | [a; b] =>
      [Byte.to_N a / 4; (Byte.to_N a mod 4) * 16 + Byte.to_N b / 16;
       (Byte.to_N b mod 16) * 4]
  | [a] => [Byte.to_N a / 4; (Byte.to_N a mod 4) * 16]
  | [] => []
  end.

(** The alphabet, with [c62] and [c63] for the last two characters. *)
Definition base64_char (c62 c63 : ascii) (n : N) : ascii :=
  if n <? 26 then ascii_of_N (65 + n)
  else if n <? 52 then ascii_of_N (71 + n)
  else if n <? 62 then ascii_of_N (n - 4)
  else if n =? 62 then c62
  else c63.

(** URL-safe, without padding. *)
Definition base64url_encode (bytes : list byte) : string :=
  string_of_list_ascii (map (base64_char "-" "_") (base64_sextets bytes)).

(** Standard, padded with [=] to a multiple of four. *)
Definition base64_encode (bytes : list byte) : string :=
  let chars := map (base64_char "+" "/") (base64_sextets bytes) in
  string_of_list_ascii
    (chars ++ repeat "="%char ((4 - Nat.modulo (List.length chars) 4) mod 4)%nat).

(** What the replacements of [base64ToArrayBuffer], the white-space filter
    and the alphabet of [atob] make of the character written for a sextet. *)
Definition reads_back (c62 c63 : ascii) (n : N) : bool :=
  let c := base64_char c62 c63 n in
  let c' := if Ascii.eqb c "-" then "+"%char else c in
  let c'' := if Ascii.eqb c' "_" then "/"%char else c' in
  negb (is_ascii_whitespace c'') &&
  negb (Ascii.eqb c'' "=") &&
  match base64_value c'' with Some v => v =? n | None => false end.

(** ** The proxy list as text *)

(** A string without the character [c]. *)
Fixpoint free_of (c : ascii) (s : string) : bool :=
  match s with
  | EmptyString => true
  | String x s' => negb (Ascii.eqb x c) && free_of c s'
  end.

(** A field as [getPrxList] keeps it: not empty, on one line, without a
    comma, and with nothing for [trim] to remove. *)
Definition plain_field (s : string) : Prop :=
  is_empty s = false /\ free_of "," s = true /\ free_of "010" s = true /\
  trim s = s.

Definition plain_entry (p : Prx) : Prop :=
  plain_field (prxIP p) /\ plain_field (prxPort p) /\
  plain_field (country p) /\ plain_field (org p).

(** [ip,port,country,org]. *)
Definition entry_line (p : Prx) : string :=
  prxIP p ++ "," ++ prxPort p ++ "," ++ country p ++ "," ++ org p.

Definition list_text (ps : list Prx) : string :=
  String.concat (String "010" "") (map entry_line ps).

(** A string without [:], [=] and [-]. *)
Fixpoint delimiter_free (s : string) : bool :=
  match s with
  | EmptyString => true
  | String c s' => negb (is_hint_delimiter c) && delimiter_free s'
  end.

(** Nothing, or a delimiter and more text. *)
Definition delimited (tail : string) : Prop :=
  match tail with
  | EmptyString => True
  | String c _ => is_hint_delimiter c = true
  end.

Definition normal (c : ascii) : ascii :=
  (fun x => if Ascii.eqb x "_" then "/"%char else x)
    ((fun x => if Ascii.eqb x "-" then "+"%char else x) c).

(** ** Samples *)

Definition prx_a : Prx :=
  {| prxIP := "1.2.3.4"; prxPort := "443"; country := "ID"; org := "Acme Net" |}.

Definition prx_b : Prx :=
  {| prxIP := "5.6.7.8"; prxPort := "80"; country := "SG"; org := "Other" |}.

(** A frame with the Trojan marker and the command byte 0x7F. *)
Definition trojan_7f_frame : ArrayBuffer :=
  repeat x00 56 ++ [x0d; x0a; x7f; x01; x01; x02; x03; x04; x01; xbb].

(** A remote end whose first write is rejected. *)
Definition refusing : remote :=
  {| write_ok := false; incoming := []; ending := EndErrored;
     readyState_at_end := WS_READY_STATE_OPEN |}.

(** * Properties *)

(** ** Strings and slices *)

Lemma length_string_append (s t : string) :
  String.length (s ++ t) = (String.length s + String.length t)%nat.
Proof.
  induction s as [|c s IH]; simpl; [reflexivity | now rewrite IH].
Qed.

Lemma length_hex_byte (x : byte) :
  String.length (padStart (toString16 (Byte.to_N x)) 2 "0") = 2%nat.
Proof. destruct x; reflexivity. Qed.

Lemma length_arrayBufferToHex (buffer : ArrayBuffer) :
  String.length (arrayBufferToHex buffer) = (2 * List.length buffer)%nat.
Proof.
  unfold arrayBufferToHex.
  induction buffer as [|x xs IH]; [reflexivity|].
  destruct xs as [|y ys].
  - apply length_hex_byte.
  - change (String.length
              (padStart (toString16 (Byte.to_N x)) 2 "0" ++
               String.concat ""
                 (map (fun x => padStart (toString16 (Byte.to_N x)) 2 "0") (y :: ys)))
            = (2 * List.length (x :: y :: ys))%nat).
    rewrite length_string_append, length_hex_byte, IH.
    cbn [List.length]. lia.
Qed.

Lemma regex_test_length (pattern : list atom) (s : string) :
  regex_test pattern s = true -> String.length s = List.length pattern.
Proof.
  revert s; induction pattern as [|a p IH]; intros [|c s]; simpl;
    try discriminate; [reflexivity|].
  intros H. apply andb_true_iff in H as [_ H]. now rewrite (IH s H).
Qed.

Lemma length_slice (buffer : ArrayBuffer) (b e : N) :
  (List.length (slice buffer b e) <= N.to_nat (e - b))%nat.
Proof.
  unfold slice; cbn [ToIntegerOrInfinity]. apply firstn_le_length.
Qed.

(** The hex text of at most 16 bytes has at most 32 characters; the pattern
    takes 36. *)
Lemma uuid_test_on_hex (buffer : ArrayBuffer) :
  regex_test uuid_v4_pattern (arrayBufferToHex (slice buffer 1 17)) = false.
Proof.
  destruct (regex_test _ _) eqn:E; [|reflexivity].
  apply regex_test_length in E.
  rewrite length_arrayBufferToHex in E.
  pose proof (length_slice buffer 1 17) as L.
  change (List.length uuid_v4_pattern) with 36%nat in E.
  change (N.to_nat (17 - 1)) with 16%nat in L. lia.
Qed.

Lemma Uint8Array_get_slice (buffer : ArrayBuffer) (b e i : N) :
  i < e - b ->
  Uint8Array_get (slice buffer b e) i =
  option_map Byte.to_N (nth_error buffer (N.to_nat (b + i))).
Proof.
  intros Hi. unfold Uint8Array_get, slice; cbn [ToIntegerOrInfinity].
  rewrite nth_error_firstn, nth_error_skipn.
  replace (N.to_nat b + N.to_nat i)%nat with (N.to_nat (b + i)) by lia.
  destruct (PeanoNat.Nat.ltb_spec (N.to_nat i) (N.to_nat (e - b))); [reflexivity | lia].
Qed.

Lemma get0_slice buffer (b : N) :
  Uint8Array_get (slice buffer b (Num (b + 1))) 0 = option_map Byte.to_N (nth_error buffer (N.to_nat b)).
Proof.
  rewrite Uint8Array_get_slice by lia. now rewrite N.add_0_r.
Qed.

Lemma slice_to_NaN buffer b : slice buffer b NaN = [].
Proof. reflexivity. Qed.


(** ** The sniffer *)

(** Rule 1: the Trojan marker at [56..60) of a chunk of at least 62 bytes. *)
Lemma protocolSniffer_trojan (F : ArrayBuffer) (b58 b59 : byte) :
  62 <= byteLength F ->
  nth_error F 56 = Some x0d ->
  nth_error F 57 = Some x0a ->
  nth_error F 58 = Some b58 -> In b58 [x01; x03; x7f] ->
  nth_error F 59 = Some b59 -> In b59 [x01; x03; x04] ->
  protocolSniffer F = Some "trojan"%string.
Proof.
  intros Hlen H56 H57 H58 I58 H59 I59. unfold protocolSniffer.
  apply N.leb_le in Hlen. rewrite Hlen.
  rewrite !Uint8Array_get_slice by reflexivity.
  change (N.to_nat (56 + 0)) with 56%nat. change (N.to_nat (56 + 1)) with 57%nat.
  change (N.to_nat (56 + 2)) with 58%nat. change (N.to_nat (56 + 3)) with 59%nat.
  rewrite H56, H57, H58, H59.
  cbn in I58, I59.
  destruct I58 as [<-|[<-|[<-|[]]]]; destruct I59 as [<-|[<-|[<-|[]]]]; reflexivity.
Qed.

(** The test of rule 2 is made on the 32 hex digits [arrayBufferToHex]
    gives, which carry no hyphen: it never succeeds, and every chunk rule 1
    rejects is classified as Shadowsocks. *)
Lemma protocolSniffer_never_vless (buffer : ArrayBuffer) :
  protocolSniffer buffer = Some "trojan"%string \/
  protocolSniffer buffer = Some "ss"%string.
Proof.
  unfold protocolSniffer. rewrite uuid_test_on_hex.
  match goal with |- context [if ?c then _ else _] => destruct c end;
    [left | right]; reflexivity.
Qed.

(** C1: the sniffer is to return Trojan on the marker, else VLESS when the
    bytes at [1..17), rendered as grouped lowercase hex, match the UUIDv4
    pattern, else Shadowsocks.  On the scenario-3 frame the marker is absent
    (the frame has 29 bytes) and the grouped rendering of the bytes at
    [1..17) matches the pattern, yet [protocolSniffer] answers ["ss"]. *)
Theorem protocolSniffer_vless_frame_is_ss :
  byteLength vless_scenario_frame = 29 /\
  uuid_grouped_hex (slice vless_scenario_frame 1 17)
    = "12345678-9abc-4def-8012-3456789abcde"%string /\
  regex_test uuid_v4_pattern
    (uuid_grouped_hex (slice vless_scenario_frame 1 17)) = true /\
  arrayBufferToHex (slice vless_scenario_frame 1 17)
    = "123456789abc4def80123456789abcde"%string /\
  protocolSniffer vless_scenario_frame = nth_error PROTOCOLS 2.
Proof. repeat split; vm_compute; reflexivity. Qed.

(** C10: the sniffer returns one of the three entries of [PROTOCOLS] on every
    buffer; a buffer shorter than 62 bytes is not classified as Trojan, and
    one shorter than 17 bytes (the empty one included) is classified as
    Shadowsocks. *)
Theorem protocolSniffer_total (buffer : ArrayBuffer) :
  (exists p, protocolSniffer buffer = Some p /\ In p PROTOCOLS) /\
  (byteLength buffer < 62 -> protocolSniffer buffer <> nth_error PROTOCOLS 0) /\
  (byteLength buffer < 17 -> protocolSniffer buffer = nth_error PROTOCOLS 2).
Proof.
  assert (Hshort : byteLength buffer < 62 ->
                   protocolSniffer buffer = nth_error PROTOCOLS 2).
  { intros H. unfold protocolSniffer.
    apply N.leb_gt in H. rewrite H. now rewrite uuid_test_on_hex. }
  split; [|split].
  - destruct (protocolSniffer_never_vless buffer) as [-> | ->];
      eexists; (split; [reflexivity | cbn; tauto]).
  - intros H. rewrite (Hshort H). discriminate.
  - intros H. apply Hshort. lia.
Qed.

Lemma protocolSniffer_total_witness :
  byteLength [x05; x01] < 17 /\
  protocolSniffer [x05; x01] = nth_error PROTOCOLS 2 /\
  protocolSniffer vless_scenario_frame <> nth_error PROTOCOLS 0.
Proof.
  split; [reflexivity|]. split.
  - apply (proj2 (proj2 (protocolSniffer_total [x05; x01]))). reflexivity.
  - apply (proj1 (proj2 (protocolSniffer_total vless_scenario_frame))). reflexivity.
Defined.

(** ** Header and residual *)

Ltac js := lazy beta iota zeta delta [js_add ToNumber ToIntegerOrInfinity option_map bind slice_from].
Ltac got_header :=
  let H := fresh in
  intros H;
  match type of H with
  | Normal (NoError ?r) = Normal (NoError ?h) =>
      assert (h = r) by congruence; subst h; clear H
  end;
  lazy beta iota delta [rawClientData].

Lemma ss_residual frame h :
  readSsHeader frame = Normal (NoError h) ->
  rawClientData h = skipn (N.to_nat (header_size Shadowsocks frame)) frame.
Proof.
  unfold readSsHeader, header_size, address_field_size, byte_at, getUint8.
  change (N.to_nat 0) with 0%nat.
  destruct (nth_error frame 0) as [tag|]; [|discriminate].
  js.
  destruct (Byte.to_N tag =? 1) eqn:E1.
  { js. destruct (is_empty _); [discriminate|].
    destruct (getUint16 _ _); [|discriminate]. js.
    got_header. reflexivity. }
  destruct (Byte.to_N tag =? 3) eqn:E3.
  { js. rewrite get0_slice. change (N.to_nat 1) with 1%nat.
    destruct (nth_error frame 1) as [len|]; js.
    - destruct (is_empty _); [discriminate|].
      destruct (getUint16 _ _); [|discriminate]. js.
      got_header.
      f_equal. lia.
    - discriminate. }
  destruct (Byte.to_N tag =? 4) eqn:E4; [|discriminate].
  destruct (ipv6_groups _ _ _); [|discriminate]. js.
  destruct (is_empty _); [discriminate|].
  destruct (getUint16 _ _); [|discriminate]. js.
  got_header. reflexivity.
Qed.

Lemma flash_residual frame h :
  readFlashHeader frame = Normal (NoError h) ->
  rawClientData h = skipn (N.to_nat (header_size Vless frame)) frame.
Proof.
  unfold readFlashHeader, header_size, address_field_size, byte_at.
  change (Num 18) with (Num (17 + 1)) at 1. rewrite get0_slice.
  change (N.to_nat 17) with 17%nat.
  destruct (nth_error frame 17) as [optLen|]; js.
  2:{ rewrite slice_to_NaN. cbn. discriminate. }
  rewrite get0_slice.
  set (o := Byte.to_N optLen).
  destruct (strict_eq _ 1); [| destruct (strict_eq _ 2); [|discriminate]].
  all: destruct (getUint16 _ _) as [port|]; [|discriminate].
  all: rewrite !get0_slice.
  all: replace (18 + o + 1 + 2) with (21 + o) by lia.
  all: replace (21 + o + 1) with (22 + o) by lia.
  all: destruct (nth_error frame (N.to_nat (21 + o))) as [atyp|]; [|discriminate].
  all: cbv [option_map strict_eq].
  all: destruct (Byte.to_N atyp =? 1);
    [destruct (is_empty _); [discriminate|]; got_header; f_equal; lia|].
  all: destruct (Byte.to_N atyp =? 2);
    [destruct (nth_error frame (N.to_nat (22 + o))) as [len|]; js;
     [destruct (is_empty _); [discriminate|]; got_header; f_equal; lia
     |rewrite slice_to_NaN; discriminate]|].
  all: destruct (Byte.to_N atyp =? 3); [|discriminate].
  all: destruct (ipv6_groups _ _ _); [|discriminate]; js.
  all: destruct (is_empty _); [discriminate|]; got_header; f_equal; lia.
Qed.

Lemma horse_residual frame h :
  readHorseHeader frame = Normal (NoError h) ->
  rawClientData h = skipn (N.to_nat (header_size Trojan frame)) frame.
Proof.
  unfold readHorseHeader, header_size, address_field_size, byte_at, getUint8.
  js. change (N.to_nat 58) with 58%nat.
  destruct (byteLength _ <? 6); [discriminate|].
  rewrite !nth_error_skipn.
  change (58 + N.to_nat 0)%nat with 58%nat. change (58 + N.to_nat 1)%nat with 59%nat.
  change (N.to_nat 59) with 59%nat. change (N.to_nat 60) with 60%nat.
  destruct (nth_error frame 58) as [cmd|]; [|discriminate].
  destruct (Byte.to_N cmd =? 3); [| destruct (negb _); [discriminate|]].
  all: destruct (nth_error frame 59) as [atyp|]; [|discriminate].
  all: change (Num 3) with (Num (2 + 1)); rewrite ?get0_slice, ?nth_error_skipn.
  all: change (58 + N.to_nat 2)%nat with 60%nat.
  all: destruct (Byte.to_N atyp =? 1);
    [destruct (is_empty _); [discriminate|];
     destruct (getUint16 _ _); [|discriminate];
     got_header; rewrite skipn_skipn; f_equal; lia|].
  all: destruct (Byte.to_N atyp =? 3);
    [destruct (nth_error frame 60) as [len|]; js;
     [destruct (is_empty _); [discriminate|];
      destruct (getUint16 _ _); [|discriminate];
      got_header; rewrite skipn_skipn; f_equal; lia
     |rewrite slice_to_NaN; discriminate]|].
  all: destruct (Byte.to_N atyp =? 4); [|discriminate].
  all: destruct (ipv6_groups _ _ _); [|discriminate]; js.
  all: destruct (is_empty _); [discriminate|].
  all: destruct (getUint16 _ _); [|discriminate].
  all: got_header; rewrite skipn_skipn; f_equal; lia.
Qed.

(** C2: on every frame a decoder accepts, the header (its size given by the
    wire format, the Trojan trailer included) followed by the returned
    residual is the frame; the residual starts where the header ends. *)
Theorem header_then_residual (d : decoder) (frame : ArrayBuffer) (h : Header) :
  decode d frame = Normal (NoError h) ->
  let header := firstn (N.to_nat (header_size d frame)) frame in
  (header ++ rawClientData h)%list = frame /\
  rawClientData h = skipn (List.length header) frame /\
  (List.length header + List.length (rawClientData h) = List.length frame)%nat.
Proof.
  intros H header.
  assert (R : rawClientData h = skipn (N.to_nat (header_size d frame)) frame).
  { destruct d; [apply ss_residual | apply flash_residual | apply horse_residual];
      exact H. }
  assert (E : (header ++ rawClientData h)%list = frame).
  { rewrite R. apply firstn_skipn. }
  split; [exact E|]. split.
  - rewrite R. subst header. rewrite length_firstn.
    destruct (PeanoNat.Nat.le_ge_cases (N.to_nat (header_size d frame)) (List.length frame)).
    + now rewrite PeanoNat.Nat.min_l.
    + rewrite PeanoNat.Nat.min_r by assumption. rewrite !skipn_all2; auto.
  - rewrite <- length_app. now rewrite E.
Qed.

(** ** The decoders on well-formed frames *)

Lemma is_empty_append_r (s t : string) :
  is_empty t = false -> is_empty (s ++ t) = false.
Proof. destruct s; [trivial | reflexivity]. Qed.

Lemma slice_app (pre mid rest : ArrayBuffer) (b e : N) :
  N.to_nat b = List.length pre ->
  N.to_nat (e - b) = List.length mid ->
  slice (pre ++ mid ++ rest) b e = mid.
Proof.
  intros Hb He. unfold slice; cbn [ToIntegerOrInfinity].
  rewrite Hb, He, skipn_app, skipn_all, PeanoNat.Nat.sub_diag.
  cbn [skipn app]. rewrite firstn_app, firstn_all, PeanoNat.Nat.sub_diag.
  cbn [firstn]. apply app_nil_r.
Qed.

Lemma slice_from_app (pre rest : ArrayBuffer) (b : N) :
  N.to_nat b = List.length pre ->
  slice_from (pre ++ rest) b = rest.
Proof.
  intros Hb. unfold slice_from; cbn [ToIntegerOrInfinity].
  now rewrite Hb, skipn_app, skipn_all, PeanoNat.Nat.sub_diag.
Qed.

Lemma getUint16_pair (hi lo : byte) : getUint16 [hi; lo] 0 = Normal (u16 hi lo).
Proof. reflexivity. Qed.

Lemma ipv6_groups_16 (addr : list byte) :
  List.length addr = 16%nat ->
  ipv6_groups addr 0 8 = Normal (map toString16 (words16 addr)).
Proof.
  intros H.
  do 16 (destruct addr as [|? addr]; [discriminate|]).
  destruct addr; [|discriminate]. reflexivity.
Qed.

Lemma ipv6_text_not_empty (addr : list byte) :
  List.length addr = 16%nat -> is_empty (ipv6_text addr) = false.
Proof.
  intros H.
  do 16 (destruct addr as [|? addr]; [discriminate|]).
  destruct addr; [|discriminate].
  unfold ipv6_text. cbn [words16 map String.concat].
  apply is_empty_append_r. reflexivity.
Qed.

Lemma ss_ipv4 (a b c d hi lo : byte) (residual : ArrayBuffer) :
     readSsHeader ([x01; a; b; c; d; hi; lo] ++ residual) =
     Normal (NoError {|
       addressRemote := ipv4_text a b c d;
       addressType := Some 1;
       portRemote := u16 hi lo;
       rawClientData := residual;
       version := None;
       isUDP := u16 hi lo =? 53 |}).
Proof.
  unfold readSsHeader.
  change (getUint8 _ 0) with (Normal (A:=N) 1).
  lazy beta iota zeta delta [bind js_add].
  change (1 =? 1) with true. lazy iota.
  change ([x01; a; b; c; d; hi; lo] ++ residual)%list
    with ([x01] ++ [a; b; c; d] ++ [hi; lo] ++ residual)%list.
  rewrite (slice_app [x01] [a; b; c; d] _ 1 (1 + 4)) by reflexivity.
  change (Uint8Array_join "." [a; b; c; d]) with (ipv4_text a b c d).
  replace (is_empty (ipv4_text a b c d)) with false
    by (symmetry; unfold ipv4_text; apply is_empty_append_r; reflexivity).
  change ([x01] ++ [a; b; c; d] ++ [hi; lo] ++ residual)%list
    with ([x01; a; b; c; d] ++ [hi; lo] ++ residual)%list.
  rewrite (slice_app [x01; a; b; c; d] [hi; lo] residual (1 + 4) (1 + 4 + 2)) by reflexivity.
  rewrite getUint16_pair.
  lazy beta iota zeta delta [bind].
  change ([x01; a; b; c; d] ++ [hi; lo] ++ residual)%list
    with ([x01; a; b; c; d; hi; lo] ++ residual)%list.
  rewrite (slice_from_app [x01; a; b; c; d; hi; lo] residual (1 + 4 + 2)) by reflexivity.
  reflexivity.
Qed.

Lemma ss_domain (len hi lo : byte) (name residual : ArrayBuffer) :
  List.length name = N.to_nat (Byte.to_N len) ->
  readSsHeader ([x03; len] ++ name ++ [hi; lo] ++ residual) =
  if is_empty (TextDecoder_decode name) then
    Normal (HasError "Destination address empty for SS, address type: 3")
  else
    Normal (NoError {|
      addressRemote := TextDecoder_decode name;
      addressType := Some 3;
      portRemote := u16 hi lo;
      rawClientData := residual;
      version := None;
      isUDP := u16 hi lo =? 53 |}).
Proof.
  intros Hlen. unfold readSsHeader.
  change (getUint8 _ 0) with (Normal (A:=N) 3).
  lazy beta iota zeta delta [bind js_add].
  change (3 =? 1) with false. change (3 =? 3) with true. lazy iota.
  change (Uint8Array_get (slice _ 1 (1 + 1)) 0) with (Some (Byte.to_N len)).
  lazy beta iota zeta delta [ToNumber js_add].
  rewrite (slice_app [x03; len] name _ (1 + 1) (1 + 1 + Byte.to_N len)) by (cbn [List.length]; lia).
  destruct (is_empty (TextDecoder_decode name)); [reflexivity|].
  rewrite (app_assoc [x03; len] name).
  rewrite (slice_app _ [hi; lo] residual (1 + 1 + Byte.to_N len) (1 + 1 + Byte.to_N len + 2))
    by (rewrite ?length_app; cbn [List.length]; lia).
  rewrite getUint16_pair.
  lazy beta iota zeta delta [bind].
  rewrite (app_assoc _ [hi; lo] residual).
  rewrite slice_from_app by (rewrite ?length_app; cbn [List.length]; lia).
  reflexivity.
Qed.

Lemma ss_ipv6 (hi lo : byte) (addr residual : ArrayBuffer) :
  List.length addr = 16%nat ->
  readSsHeader ([x04] ++ addr ++ [hi; lo] ++ residual) =
    Normal (NoError {|
      addressRemote := ipv6_text addr;
      addressType := Some 4;
      portRemote := u16 hi lo;
      rawClientData := residual;
      version := None;
      isUDP := u16 hi lo =? 53 |}).
Proof.
  intros Hlen. unfold readSsHeader.
  change (getUint8 _ 0) with (Normal (A:=N) 4).
  lazy beta iota zeta delta [bind js_add].
  change (4 =? 1) with false. change (4 =? 3) with false.
  change (4 =? 4) with true. lazy iota.
  rewrite (slice_app [x04] addr _ 1 (1 + 16)) by (rewrite ?Hlen; reflexivity).
  rewrite ipv6_groups_16 by assumption.
  lazy beta iota zeta delta [bind].
  fold (ipv6_text addr). rewrite ipv6_text_not_empty by assumption.
  rewrite (app_assoc [x04] addr).
  rewrite (slice_app _ [hi; lo] residual (1 + 16) (1 + 16 + 2))
    by (rewrite ?length_app, ?Hlen; reflexivity).
  rewrite getUint16_pair.
  lazy beta iota zeta delta [bind].
  rewrite (app_assoc _ [hi; lo] residual).
  rewrite slice_from_app by (rewrite ?length_app, ?Hlen; reflexivity).
  reflexivity.
Qed.

Lemma ss_unknown_tag (tag : byte) (rest : ArrayBuffer) :
  Byte.to_N tag <> 1 -> Byte.to_N tag <> 3 -> Byte.to_N tag <> 4 ->
  readSsHeader (tag :: rest) =
  Normal (HasError ("Invalid addressType for SS: " ++ toString10 (Byte.to_N tag))).
Proof.
  intros H1 H3 H4. unfold readSsHeader.
  change (getUint8 _ 0) with (Normal (Byte.to_N tag)).
  lazy beta iota zeta delta [bind].
  apply N.eqb_neq in H1, H3, H4. now rewrite H1, H3, H4.
Qed.

Lemma slice_eq (buffer pre mid rest : ArrayBuffer) (b e : N) :
  buffer = (pre ++ mid ++ rest)%list ->
  N.to_nat b = List.length pre ->
  N.to_nat (e - b) = List.length mid ->
  slice buffer b e = mid.
Proof. intros ->. apply slice_app. Qed.

Lemma slice_from_eq (buffer pre rest : ArrayBuffer) (b : N) :
  buffer = (pre ++ rest)%list ->
  N.to_nat b = List.length pre ->
  slice_from buffer b = rest.
Proof. intros ->. apply slice_from_app. Qed.

Lemma Uint8Array_get_singleton (x : byte) :
  Uint8Array_get [x] 0 = Some (Byte.to_N x).
Proof. reflexivity. Qed.

Ltac layout := subst; rewrite <- ?app_assoc; cbn [app]; reflexivity.
Ltac sizes := rewrite ?length_app; cbn [List.length]; lia.

Ltac slice_at pre mid rest :=
  match goal with
  | |- context [slice ?buf (Num ?b) (Num ?e)] =>
      rewrite (slice_eq buf pre mid rest b e) by (layout || sizes)
  end.

Ltac slice_from_at pre rest :=
  match goal with
  | |- context [slice_from ?buf (Num ?b)] =>
      rewrite (slice_from_eq buf pre rest b) by (layout || sizes)
  end.

Section Vless.
Variables (v optLen cmd hi lo : byte) (uuid opts : ArrayBuffer).
Hypothesis Huuid : List.length uuid = 16%nat.
Hypothesis Hopts : List.length opts = N.to_nat (Byte.to_N optLen).

Let preamble : ArrayBuffer := ([v] ++ uuid ++ [optLen] ++ opts)%list.

Lemma flash_unsupported (rest : ArrayBuffer) :
  Byte.to_N cmd <> 1 -> Byte.to_N cmd <> 2 ->
  readFlashHeader (preamble ++ cmd :: rest) =
  Normal (HasError ("Unsupported VLESS command: " ++ toString10 (Byte.to_N cmd))).
Proof.
  intros H1 H2. unfold readFlashHeader.
  remember (preamble ++ cmd :: rest)%list as buffer eqn:Hbuf.
  subst preamble.
  slice_at ([v] ++ uuid)%list [optLen] (opts ++ cmd :: rest)%list.
  rewrite Uint8Array_get_singleton.
  lazy beta iota zeta delta [ToNumber js_add].
  slice_at ([v] ++ uuid ++ [optLen] ++ opts)%list [cmd] rest.
  rewrite Uint8Array_get_singleton.
  unfold strict_eq. apply N.eqb_neq in H1, H2. now rewrite H1, H2.
Qed.

Hypothesis Hcmd : Byte.to_N cmd = 1 \/ Byte.to_N cmd = 2.

Ltac flash_prefix rest :=
  unfold readFlashHeader;
  match goal with
  | |- context [slice ?b _ _] => remember b as buffer eqn:Hbuf
  end;
  subst preamble;
  slice_at (@nil byte) [v] (uuid ++ [optLen] ++ opts ++ [cmd; hi; lo] ++ rest)%list;
  slice_at ([v] ++ uuid)%list [optLen] (opts ++ [cmd; hi; lo] ++ rest)%list;
  rewrite Uint8Array_get_singleton;
  lazy beta iota zeta delta [ToNumber js_add];
  slice_at ([v] ++ uuid ++ [optLen] ++ opts)%list [cmd] ([hi; lo] ++ rest)%list;
  rewrite Uint8Array_get_singleton;
  slice_at ([v] ++ uuid ++ [optLen] ++ opts ++ [cmd])%list [hi; lo] rest;
  rewrite getUint16_pair;
  lazy beta iota zeta delta [bind];
  unfold strict_eq at 1 2;
  destruct Hcmd as [E | E]; rewrite E;
  change (1 =? 1) with true; change (1 =? 2) with false;
  change (2 =? 1) with false; change (2 =? 2) with true;
  lazy beta iota.

Ltac tag_is n :=
  rewrite Uint8Array_get_singleton;
  match goal with
  | |- context [Byte.to_N ?t] =>
      is_constructor t; change (Byte.to_N t) with n
  end;
  cbv [strict_eq show];
  lazy beta iota.

Lemma flash_ipv4 (a b c d : byte) (residual : ArrayBuffer) :
  readFlashHeader (preamble ++ [cmd; hi; lo; x01; a; b; c; d] ++ residual) =
  Normal (NoError {|
    addressRemote := ipv4_text a b c d;
    addressType := Some 1;
    portRemote := u16 hi lo;
    rawClientData := residual;
    version := Some [v; x00];
    isUDP := Byte.to_N cmd =? 2 |}).
Proof.
  flash_prefix ([x01; a; b; c; d] ++ residual)%list.
  all: slice_at ([v] ++ uuid ++ [optLen] ++ opts ++ [cmd; hi; lo])%list
         [x01] ([a; b; c; d] ++ residual)%list.
  all: tag_is 1.
  all: change (1 =? 1) with true; lazy beta iota.
  all: slice_at ([v] ++ uuid ++ [optLen] ++ opts ++ [cmd; hi; lo; x01])%list
         [a; b; c; d] residual.
  all: change (Uint8Array_join "." [a; b; c; d]) with (ipv4_text a b c d).
  all: replace (is_empty (ipv4_text a b c d)) with false
    by (symmetry; unfold ipv4_text; apply is_empty_append_r; reflexivity).
  all: slice_from_at
         ([v] ++ uuid ++ [optLen] ++ opts ++ [cmd; hi; lo; x01; a; b; c; d])%list
         residual.
  all: reflexivity.
Qed.

Lemma flash_domain (len : byte) (name residual : ArrayBuffer) :
  List.length name = N.to_nat (Byte.to_N len) ->
  readFlashHeader (preamble ++ [cmd; hi; lo; x02; len] ++ name ++ residual) =
  if is_empty (TextDecoder_decode name) then
    Normal (HasError "Empty VLESS address, type: 2")
  else
    Normal (NoError {|
      addressRemote := TextDecoder_decode name;
      addressType := Some 2;
      portRemote := u16 hi lo;
      rawClientData := residual;
      version := Some [v; x00];
      isUDP := Byte.to_N cmd =? 2 |}).
Proof.
  intros Hname.
  flash_prefix ([x02; len] ++ name ++ residual)%list.
  all: slice_at ([v] ++ uuid ++ [optLen] ++ opts ++ [cmd; hi; lo])%list
         [x02] ([len] ++ name ++ residual)%list.
  all: tag_is 2.
  all: change (2 =? 1) with false; change (2 =? 2) with true; lazy beta iota.
  all: slice_at ([v] ++ uuid ++ [optLen] ++ opts ++ [cmd; hi; lo; x02])%list
         [len] (name ++ residual)%list.
  all: rewrite Uint8Array_get_singleton.
  all: lazy beta iota zeta delta [ToNumber js_add].
  all: slice_at ([v] ++ uuid ++ [optLen] ++ opts ++ [cmd; hi; lo; x02; len])%list
         name residual.
  all: destruct (is_empty (TextDecoder_decode name)); [reflexivity|].
  all: slice_from_at
         ([v] ++ uuid ++ [optLen] ++ opts ++ [cmd; hi; lo; x02; len] ++ name)%list
         residual.
  all: reflexivity.
Qed.

Lemma flash_ipv6 (addr residual : ArrayBuffer) :
  List.length addr = 16%nat ->
  readFlashHeader (preamble ++ [cmd; hi; lo; x03] ++ addr ++ residual) =
  Normal (NoError {|
    addressRemote := "[" ++ ipv6_text addr ++ "]";
    addressType := Some 3;
    portRemote := u16 hi lo;
    rawClientData := residual;
    version := Some [v; x00];
    isUDP := Byte.to_N cmd =? 2 |}).
Proof.
  intros Haddr.
  flash_prefix ([x03] ++ addr ++ residual)%list.
  all: slice_at ([v] ++ uuid ++ [optLen] ++ opts ++ [cmd; hi; lo])%list
         [x03] (addr ++ residual)%list.
  all: tag_is 3.
  all: change (3 =? 1) with false; change (3 =? 2) with false;
       change (3 =? 3) with true; lazy beta iota.
  all: slice_at ([v] ++ uuid ++ [optLen] ++ opts ++ [cmd; hi; lo; x03])%list
         addr residual.
  all: rewrite ipv6_groups_16 by assumption.
  all: lazy beta iota zeta delta [bind].
  all: fold (ipv6_text addr).
  all: change (is_empty ("[" ++ ipv6_text addr ++ "]")) with false; lazy iota.
  all: slice_from_at
         ([v] ++ uuid ++ [optLen] ++ opts ++ [cmd; hi; lo; x03] ++ addr)%list
         residual.
  all: reflexivity.
Qed.
End Vless.

(** A frame cut short before the end of its port is not decoded: reading
    the port raises. *)
Example readSsHeader_truncated :
  readSsHeader [x01; x0a; x00; x00; x01; x00] = Throw RangeError /\
  readSsHeader [] = Throw RangeError.
Proof. split; reflexivity. Qed.

Example readFlashHeader_truncated :
  readFlashHeader ([x00] ++ sample_uuid ++ [x00; x01; x01]) = Throw RangeError.
Proof. reflexivity. Qed.

(** C7: the Shadowsocks decoder on a frame laid out as tag, address, port,
    residual.  A tag other than 1, 3, 4 is refused; tag 1 gives the dotted
    IPv4 text, tag 3 the decoded domain (refused when it decodes to the empty
    string), tag 4 the eight hex groups without brackets; the port is the
    big-endian 16-bit value after the address, the residual is what follows
    it, and [isUDP] is [port = 53].  Scenario 1 gives 10.0.0.1, port 80,
    residual HI. *)
Theorem readSsHeader_spec :
  (forall (tag : byte) (rest : ArrayBuffer),
     Byte.to_N tag <> 1 -> Byte.to_N tag <> 3 -> Byte.to_N tag <> 4 ->
     readSsHeader (tag :: rest) =
     Normal (HasError
               ("Invalid addressType for SS: " ++ toString10 (Byte.to_N tag)))) /\
  (forall (a b c d hi lo : byte) (residual : ArrayBuffer),
     readSsHeader ([x01; a; b; c; d; hi; lo] ++ residual) =
     Normal (NoError {|
       addressRemote := ipv4_text a b c d;
       addressType := Some 1;
       portRemote := u16 hi lo;
       rawClientData := residual;
       version := None;
       isUDP := u16 hi lo =? 53 |})) /\
  (forall (len hi lo : byte) (name residual : ArrayBuffer),
     List.length name = N.to_nat (Byte.to_N len) ->
     readSsHeader ([x03; len] ++ name ++ [hi; lo] ++ residual) =
     if is_empty (TextDecoder_decode name) then
       Normal (HasError "Destination address empty for SS, address type: 3")
     else
       Normal (NoError {|
         addressRemote := TextDecoder_decode name;
         addressType := Some 3;
         portRemote := u16 hi lo;
         rawClientData := residual;
         version := None;
         isUDP := u16 hi lo =? 53 |})) /\
  (forall (hi lo : byte) (addr residual : ArrayBuffer),
     List.length addr = 16%nat ->
     readSsHeader ([x04] ++ addr ++ [hi; lo] ++ residual) =
     Normal (NoError {|
       addressRemote := ipv6_text addr;
       addressType := Some 4;
       portRemote := u16 hi lo;
       rawClientData := residual;
       version := None;
       isUDP := u16 hi lo =? 53 |})) /\
  readSsHeader ss_scenario_frame =
  Normal (NoError {|
    addressRemote := "10.0.0.1";
    addressType := Some 1;
    portRemote := 80;
    rawClientData := [x48; x49];
    version := None;
    isUDP := false |}).
Proof.
  split; [exact ss_unknown_tag|].
  split; [exact ss_ipv4|].
  split; [exact ss_domain|].
  split; [exact ss_ipv6|].
  exact (ss_ipv4 x0a x00 x00 x01 x00 x50 [x48; x49]).
Qed.

Lemma readSsHeader_spec_witness :
  readSsHeader [x05; x00; x50] =
    Normal (HasError "Invalid addressType for SS: 5") /\
  readSsHeader [x03; x03; x66; x6f; x6f; x00; x35; x51] =
    Normal (NoError {|
      addressRemote := "foo";
      addressType := Some 3;
      portRemote := 53;
      rawClientData := [x51];
      version := None;
      isUDP := true |}) /\
  readSsHeader [x03; x00; x00; x50] =
    Normal (HasError "Destination address empty for SS, address type: 3") /\
  readSsHeader ([x04] ++ repeat x00 16 ++ [x01; xbb]) =
    Normal (NoError {|
      addressRemote := "0:0:0:0:0:0:0:0";
      addressType := Some 4;
      portRemote := 443;
      rawClientData := [];
      version := None;
      isUDP := false |}).
Proof.
  destruct readSsHeader_spec as (Htag & _ & Hdom & Hv6 & _).
  split; [|split; [|split]].
  - apply (Htag x05 [x00; x50]); discriminate.
  - apply (Hdom x03 x00 x35 [x66; x6f; x6f] [x51]). reflexivity.
  - apply (Hdom x00 x00 x50 [] []). reflexivity.
  - apply (Hv6 x01 xbb (repeat x00 16) []). reflexivity.
Defined.

(** C6: the VLESS decoder on a frame laid out as version, uuid, optLen,
    opts, cmd, port, atyp, address, residual.  The command is the byte at
    [18 + optLen]; any value other than 1 and 2 is refused.  Otherwise the
    port is the big-endian 16-bit value after the command, tag 1 gives the
    dotted IPv4 text, tag 2 the decoded domain behind its length byte, tag 3
    the bracketed hex groups, the residual is what follows the address,
    [isUDP] tells whether the command was 2, and the prelude is the first
    byte of the buffer followed by zero.  Scenario 3 gives foo, 443, PAY,
    TCP, prelude 00 00. *)
Theorem readFlashHeader_spec
    (v optLen cmd hi lo : byte) (uuid opts : ArrayBuffer) :
  List.length uuid = 16%nat ->
  List.length opts = N.to_nat (Byte.to_N optLen) ->
  let preamble := ([v] ++ uuid ++ [optLen] ++ opts)%list in
  (Byte.to_N cmd <> 1 -> Byte.to_N cmd <> 2 ->
   forall rest : ArrayBuffer,
     nth_error (preamble ++ cmd :: rest) (N.to_nat (18 + Byte.to_N optLen)) = Some cmd /\
     readFlashHeader (preamble ++ cmd :: rest) =
     Normal (HasError
               ("Unsupported VLESS command: " ++ toString10 (Byte.to_N cmd)))) /\
  (Byte.to_N cmd = 1 \/ Byte.to_N cmd = 2 ->
   (forall (a b c d : byte) (residual : ArrayBuffer),
      readFlashHeader (preamble ++ [cmd; hi; lo; x01; a; b; c; d] ++ residual) =
      Normal (NoError {|
        addressRemote := ipv4_text a b c d;
        addressType := Some 1;
        portRemote := u16 hi lo;
        rawClientData := residual;
        version := Some [v; x00];
        isUDP := Byte.to_N cmd =? 2 |})) /\
   (forall (len : byte) (name residual : ArrayBuffer),
      List.length name = N.to_nat (Byte.to_N len) ->
      readFlashHeader (preamble ++ [cmd; hi; lo; x02; len] ++ name ++ residual) =
      if is_empty (TextDecoder_decode name) then
        Normal (HasError "Empty VLESS address, type: 2")
      else
        Normal (NoError {|
          addressRemote := TextDecoder_decode name;
          addressType := Some 2;
          portRemote := u16 hi lo;
          rawClientData := residual;
          version := Some [v; x00];
          isUDP := Byte.to_N cmd =? 2 |})) /\
   (forall (addr residual : ArrayBuffer),
      List.length addr = 16%nat ->
      readFlashHeader (preamble ++ [cmd; hi; lo; x03] ++ addr ++ residual) =
      Normal (NoError {|
        addressRemote := "[" ++ ipv6_text addr ++ "]";
        addressType := Some 3;
        portRemote := u16 hi lo;
        rawClientData := residual;
        version := Some [v; x00];
        isUDP := Byte.to_N cmd =? 2 |}))) /\
  readFlashHeader vless_scenario_frame =
  Normal (NoError {|
    addressRemote := "foo";
    addressType := Some 2;
    portRemote := 443;
    rawClientData := [x50; x41; x59];
    version := Some [x00; x00];
    isUDP := false |}).
Proof.
  intros Huuid Hopts preamble. split; [|split].
  - intros H1 H2 rest. split.
    + assert (L : N.to_nat (18 + Byte.to_N optLen) = List.length preamble)
        by (subst preamble; rewrite !length_app; cbn [List.length]; lia).
      rewrite L, nth_error_app2, PeanoNat.Nat.sub_diag by apply le_n.
      reflexivity.
    + now apply flash_unsupported.
  - intros Hcmd. split; [|split].
    + now apply flash_ipv4.
    + now apply flash_domain.
    + now apply flash_ipv6.
  - vm_compute. reflexivity.
Qed.

Lemma readFlashHeader_spec_witness :
  readFlashHeader ([x00] ++ sample_uuid ++ [x00] ++ [] ++ x05 :: [x01; xbb]) =
    Normal (HasError "Unsupported VLESS command: 5") /\
  readFlashHeader vless_scenario_frame =
    Normal (NoError {|
      addressRemote := "foo";
      addressType := Some 2;
      portRemote := 443;
      rawClientData := [x50; x41; x59];
      version := Some [x00; x00];
      isUDP := false |}) /\
  readFlashHeader
    ([x00] ++ sample_uuid ++ [x00] ++ [] ++ [x02; x00; x35; x03] ++ repeat x00 16 ++ []) =
    Normal (NoError {|
      addressRemote := "[0:0:0:0:0:0:0:0]";
      addressType := Some 3;
      portRemote := 53;
      rawClientData := [];
      version := Some [x00; x00];
      isUDP := true |}).
Proof.
  split; [|split].
  - refine (proj2 (proj1 (readFlashHeader_spec x00 x00 x05 x01 xbb sample_uuid []
                            eq_refl eq_refl) _ _ [x01; xbb])); discriminate.
  - refine (proj1 (proj2 (proj1 (proj2 (readFlashHeader_spec x00 x00 x01 x01 xbb
              sample_uuid [] eq_refl eq_refl)) (or_introl eq_refl)))
              x03 [x66; x6f; x6f] [x50; x41; x59] eq_refl).
  - refine (proj2 (proj2 (proj1 (proj2 (readFlashHeader_spec x00 x00 x02 x00 x35
              sample_uuid [] eq_refl eq_refl)) (or_intror eq_refl)))
              (repeat x00 16) [] eq_refl).
Defined.

(** ** Traces *)

Lemma frames_app (t u : list effect) : frames (t ++ u) = (frames t ++ frames u)%list.
Proof.
  induction t as [|e t IH]; [reflexivity|].
  destruct e; cbn [app frames]; now rewrite IH.
Qed.

Lemma connects_app (t u : list effect) :
  connects (t ++ u) = (connects t ++ connects u)%list.
Proof.
  induction t as [|e t IH]; [reflexivity|].
  destruct e; cbn [app connects]; now rewrite IH.
Qed.

Lemma socket_writes_app (t u : list effect) :
  socket_writes (t ++ u) = (socket_writes t ++ socket_writes u)%list.
Proof.
  induction t as [|e t IH]; [reflexivity|].
  destruct e; cbn [app socket_writes]; now rewrite IH.
Qed.

Lemma on_websocket_quiet (t : list effect) :
  Forall on_websocket t -> connects t = [] /\ socket_writes t = [].
Proof.
  induction 1 as [|e t He _ [IH1 IH2]]; [split; reflexivity|].
  destruct e; cbn in He; try contradiction; cbn [connects socket_writes]; auto.
Qed.

Lemma safeCloseWebSocket_cases (readyState : N) :
  (readyState = WS_READY_STATE_OPEN \/ readyState = WS_READY_STATE_CLOSING) /\
    safeCloseWebSocket readyState = [WsClose] \/
  (readyState <> WS_READY_STATE_OPEN /\ readyState <> WS_READY_STATE_CLOSING) /\
    safeCloseWebSocket readyState = [].
Proof.
  unfold safeCloseWebSocket.
  destruct (N.eqb_spec readyState WS_READY_STATE_OPEN);
    destruct (N.eqb_spec readyState WS_READY_STATE_CLOSING); cbn [orb]; auto.
Qed.

Lemma safeCloseWebSocket_on_websocket (readyState : N) :
  Forall on_websocket (safeCloseWebSocket readyState).
Proof.
  destruct (safeCloseWebSocket_cases readyState) as [[_ ->] | [_ ->]];
    repeat constructor.
Qed.

Lemma frames_safeCloseWebSocket (readyState : N) :
  frames (safeCloseWebSocket readyState) = [].
Proof.
  destruct (safeCloseWebSocket_cases readyState) as [[_ ->] | [_ ->]]; reflexivity.
Qed.

(** ** The bridge from the remote socket to the WebSocket *)

Lemma bridge_write_spec (readyState : N) (chunk : ArrayBuffer) (st : bridge) :
  bridge_write readyState chunk st =
  ((if readyState =? WS_READY_STATE_OPEN then []
    else [ControllerError "WebSocket is not open, maybe closed"]) ++
   [WsSend (match header st with Some h => h ++ chunk | None => chunk end)%list],
   {| header := None; hasIncomingData := true;
      errored := if readyState =? WS_READY_STATE_OPEN then errored st else true |}).
Proof.
  unfold bridge_write, Blob.
  destruct (readyState =? WS_READY_STATE_OPEN); cbn [negb];
    destruct (header st); cbn [List.concat]; rewrite ?app_nil_r; reflexivity.
Qed.

Lemma bridge_pipe_spec (chunks : list (N * ArrayBuffer)) (st : bridge) :
  errored st = false ->
  let '(es, st') := bridge_pipe chunks st in
  frames es = prelude_once (header st) (relayed chunks) /\
  Forall on_websocket es /\
  hasIncomingData st' =
    (hasIncomingData st || match chunks with [] => false | _ => true end).
Proof.
  revert st. induction chunks as [|[readyState chunk] rest IH]; intros st Hst.
  - cbn. destruct (header st); rewrite orb_false_r; auto.
  - cbn [bridge_pipe]. rewrite bridge_write_spec.
    cbn [errored]. rewrite Hst.
    destruct (readyState =? WS_READY_STATE_OPEN) eqn:Hopen.
    + specialize (IH {| header := None; hasIncomingData := true; errored := false |}
                     eq_refl).
      destruct (bridge_pipe rest _) as [es' st''].
      destruct IH as (Hf & Hw & Hd). cbn [header hasIncomingData] in Hf, Hd.
      rewrite frames_app, Hf. cbn [relayed]. rewrite Hopen.
      split; [destruct (header st); reflexivity|].
      split; [repeat constructor; assumption|].
      rewrite Hd. now rewrite orb_true_r.
    + cbn [relayed]. rewrite Hopen. cbn [hasIncomingData].
      split; [destruct (header st); reflexivity|].
      split; [repeat constructor|].
      now rewrite orb_true_r.
Qed.

Lemma prelude_once_nil (prelude : option ArrayBuffer) : prelude_once prelude [] = [].
Proof. destruct prelude; reflexivity. Qed.

Lemma remoteSocketToWS_spec (r : remote) (responseHeader : option ArrayBuffer)
    (retry : option (list effect)) :
  exists es,
    Forall on_websocket es /\
    frames es = prelude_once responseHeader (relayed (incoming r)) /\
    remoteSocketToWS r responseHeader retry =
    (es ++ match incoming r, retry with
           | [], Some again => again
           | _, _ => []
           end)%list.
Proof.
  unfold remoteSocketToWS.
  pose proof (bridge_pipe_spec (incoming r)
    {| header := responseHeader; hasIncomingData := false; errored := false |}
    eq_refl) as H.
  destruct (bridge_pipe _ _) as [es st]. destruct H as (Hf & Hw & Hd).
  cbn [header hasIncomingData orb] in Hf, Hd.
  exists (es ++ if errored st
                     || match ending r with EndErrored => true | EndClosed => false end
                then safeCloseWebSocket (readyState_at_end r) else [])%list.
  split; [|split].
  - apply Forall_app. split; [assumption|].
    destruct (_ || _); [apply safeCloseWebSocket_on_websocket | constructor].
  - rewrite frames_app, Hf.
    destruct (_ || _); [rewrite frames_safeCloseWebSocket|]; apply app_nil_r.
  - rewrite Hd, <- app_assoc. do 2 f_equal.
    destruct (incoming r); reflexivity.
Qed.

(** ** The upstream hint *)

Lemma string_append_assoc (a b c : string) : ((a ++ b) ++ c = a ++ (b ++ c))%string.
Proof. induction a as [|x a IH]; cbn; [reflexivity | now rewrite IH]. Qed.

Lemma string_append_nil_r (a : string) : (a ++ "" = a)%string.
Proof. induction a as [|x a IH]; cbn; [reflexivity | now rewrite IH]. Qed.

Lemma split_from_spec (s piece : string) :
  split_from s piece =
  (piece ++ before_delimiter s)%string ::
  match after_delimiter s with
  | Some s' => split_from s' ""
  | None => []
  end.
Proof.
  revert piece. induction s as [|c s IH]; intros piece; cbn.
  - now rewrite string_append_nil_r.
  - destruct (is_hint_delimiter c).
    + now rewrite string_append_nil_r.
    + rewrite IH, string_append_assoc. reflexivity.
Qed.

Lemma split_fields (hint : string) :
  nth_error (split hint) 0 = Some (hint_host hint) /\
  match nth_error (split hint) 1 with
  | Some p => p = hint_port hint
  | None => hint_port hint = ""%string
  end.
Proof.
  unfold split, hint_host, hint_port. rewrite split_from_spec.
  split; [reflexivity|]. cbn [nth_error].
  destruct (after_delimiter hint) as [s'|]; [|reflexivity].
  now rewrite split_from_spec.
Qed.

(** ** [handleTCPOutBound] *)

Lemma handleTCPOutBound_spec (addressRemote : string) (portRemote : N)
    (rawClientData : ArrayBuffer) (responseHeader : option ArrayBuffer)
    (prxIP : string) (r1 r2 : remote) :
  let first := {| hostname := addressRemote; port := PortNumber portRemote |} in
  let target := retry_target prxIP addressRemote portRemote in
  let open (s : socket) := [Connect s; StoreSocket s; SocketWrite s rawClientData] in
  exists es1 es2,
    Forall on_websocket es1 /\ Forall on_websocket es2 /\
    frames es1 = prelude_once responseHeader (relayed (incoming r1)) /\
    frames es2 = prelude_once responseHeader (relayed (incoming r2)) /\
    handleTCPOutBound addressRemote portRemote rawClientData responseHeader
      prxIP r1 r2 =
    (open first ++
     if write_ok r1 then
       es1 ++ match incoming r1 with
              | [] => open target ++ if write_ok r2 then es2 else []
              | _ :: _ => []
              end
     else [])%list.
Proof.
  intros first target open.
  unfold handleTCPOutBound, connectAndWrite.
  destruct (split_fields prxIP) as [H0 H1].
  assert (Ht : {| hostname :=
                    match nth_error (split prxIP) 0 with
                    | Some a => if is_empty a then addressRemote else a
                    | None => addressRemote
                    end;
                  port :=
                    match nth_error (split prxIP) 1 with
                    | Some p => if is_empty p then PortNumber portRemote else PortString p
                    | None => PortNumber portRemote
                    end |} = target).
  { subst target. unfold retry_target. rewrite H0.
    destruct (nth_error (split prxIP) 1) as [p|]; [now subst p | now rewrite H1]. }
  rewrite Ht. fold first.
  destruct (remoteSocketToWS_spec r2 responseHeader None) as (b2 & Hw2 & Hf2 & E2).
  set (retry := if write_ok r2 then _ else _).
  destruct (remoteSocketToWS_spec r1 responseHeader (Some retry)) as (b1 & Hw1 & Hf1 & E1).
  exists b1, (b2 ++ safeCloseWebSocket (readyState_at_end r2))%list.
  split; [assumption|].
  split; [apply Forall_app; split;
          [assumption | apply safeCloseWebSocket_on_websocket]|].
  split; [assumption|].
  split; [rewrite frames_app, frames_safeCloseWebSocket, app_nil_r; assumption|].
  destruct (write_ok r1); [|now rewrite app_nil_r].
  rewrite E1. subst retry. rewrite E2.
  assert (En : forall l : list effect,
             (l ++ match incoming r2 with [] | _ => [] end)%list = l)
    by (intros l; destruct (incoming r2); apply app_nil_r).
  rewrite En.
  destruct (incoming r1); [|reflexivity].
  destruct (write_ok r2); [|now rewrite app_nil_r].
  reflexivity.
Qed.


(** ** The prelude *)

Ltac walk_decoder :=
  repeat match goal with
         | |- (if ?c then _ else _) = _ -> _ => destruct c
         | |- bind ?c _ = _ -> _ => destruct c; cbn [bind]
         end;
  try discriminate.

Lemma decoder_version (d : decoder) (frame : ArrayBuffer) (h : Header) :
  decode d frame = Normal (NoError h) ->
  version h = match d with
              | Vless => Some [hd x00 frame; x00]
              | Shadowsocks | Trojan => None
              end.
Proof.
  destruct d; cbn [decode].
  - unfold readSsHeader. walk_decoder; got_header; reflexivity.
  - unfold readFlashHeader.
    replace (match slice frame 0 1 with v :: _ => v | [] => x00 end)
      with (hd x00 frame) by (destruct frame; reflexivity).
    walk_decoder; got_header; reflexivity.
  - unfold readHorseHeader. walk_decoder; got_header; reflexivity.
Qed.

Lemma udp_pipe_frames (chunks : list (N * ArrayBuffer)) (prelude : option ArrayBuffer) :
  frames (udp_pipe chunks prelude) =
  prelude_once prelude
    (map snd (filter (fun c => fst c =? WS_READY_STATE_OPEN) chunks)).
Proof.
  revert prelude. induction chunks as [|[readyState chunk] rest IH]; intros prelude.
  - now rewrite prelude_once_nil.
  - cbn [udp_pipe filter fst]. unfold udp_write, Blob.
    destruct (readyState =? WS_READY_STATE_OPEN).
    + destruct prelude; cbn [app frames map snd prelude_once List.concat];
        rewrite IH, ?app_nil_r; reflexivity.
    + cbn [app]. apply IH.
Qed.

Lemma handleUDPOutbound_frames (targetAddress : string) (targetPort : N)
    (udpChunk : ArrayBuffer) (responseHeader : option ArrayBuffer) (r : remote) :
  frames (handleUDPOutbound targetAddress targetPort udpChunk responseHeader r) =
  prelude_once responseHeader (dns_payloads r).
Proof.
  unfold handleUDPOutbound, dns_payloads. cbn [app frames].
  destruct (write_ok r); [apply udp_pipe_frames | now rewrite prelude_once_nil].
Qed.

Lemma handleTCPOutBound_frames (addressRemote : string) (portRemote : N)
    (rawClientData : ArrayBuffer) (responseHeader : option ArrayBuffer)
    (prxIP : string) (r1 r2 : remote) :
  frames (handleTCPOutBound addressRemote portRemote rawClientData responseHeader
            prxIP r1 r2) =
  prelude_once responseHeader (tcp_payloads r1 r2).
Proof.
  destruct (handleTCPOutBound_spec addressRemote portRemote rawClientData
              responseHeader prxIP r1 r2) as (es1 & es2 & _ & _ & F1 & F2 & ->).
  unfold tcp_payloads. cbn [app frames].
  destruct (write_ok r1); [|now rewrite prelude_once_nil].
  rewrite frames_app, F1.
  destruct (incoming r1) as [|c rest].
  - cbn [relayed app frames]. rewrite prelude_once_nil. cbn [app].
    destruct (write_ok r2); [assumption | now rewrite prelude_once_nil].
  - apply app_nil_r.
Qed.

(** Once a socket is stored the wrapper stays set. *)
Lemma stored_set (t : list effect) (s : socket) : stored t (Some s) <> None.
Proof.
  revert s. induction t as [|e t IH]; intros s; [discriminate|].
  destruct e; cbn [stored]; apply IH.
Qed.

Lemma pipeTo_routed (prxIP : string) (st : tunnel) (s : socket) (steps : list step) :
  isDNS st = false -> remoteSocketWrapper st = Some s ->
  frames (pipeTo prxIP st steps) = [] /\ connects (pipeTo prxIP st steps) = [].
Proof.
  intros Hdns Hs. induction steps as [|x rest [IHf IHc]]; [split; reflexivity|].
  cbn [pipeTo]. unfold write. rewrite Hdns, Hs.
  destruct (write_ok (first_remote x)); cbn [app frames connects].
  - auto.
  - unfold cancel.
    destruct (safeCloseWebSocket_cases (readyState x)) as [[_ ->] | [_ ->]];
      split; reflexivity.
Qed.


Lemma pipeTo_dns (prxIP : string) (st : tunnel) (steps : list step) :
  isDNS st = true ->
  frames (pipeTo prxIP st steps) =
  List.concat (map (fun x => dns_payloads (first_remote x)) steps).
Proof.
  intros Hdns. induction steps as [|x rest IH]; [reflexivity|].
  cbn [pipeTo map List.concat]. unfold write. rewrite Hdns.
  now rewrite frames_app, handleUDPOutbound_frames, IH.
Qed.


Lemma write_first_chunk (prxIP : string) (c : ArrayBuffer) (h : Header) (r1 r2 : remote) :
  readHeader c = Normal (NoError h) ->
  write prxIP start c r1 r2 =
  if isUDP h then
    if portRemote h =? 53 then
      ((handleUDPOutbound DNS_SERVER_ADDRESS DNS_SERVER_PORT c (version h) r1, Normal tt),
       {| isDNS := true; remoteSocketWrapper := None |})
    else (([], Throw (Error "UDP only supports DNS port 53")), start)
  else
    let es := handleTCPOutBound (addressRemote h) (portRemote h) (rawClientData h)
                (version h) prxIP r1 r2 in
    ((es, Normal tt), {| isDNS := false; remoteSocketWrapper := stored es None |}).
Proof.
  intros H. unfold write, start. cbn [isDNS remoteSocketWrapper]. rewrite H.
  destruct (isUDP h); [destruct (portRemote h =? 53)|]; reflexivity.
Qed.

(** C4: only the VLESS decoder returns a prelude, the first byte of the
    frame followed by zero.  On the TCP path, the retry included, and on the
    DNS path, the frames sent to the client are the payloads relayed, the
    prelude being prepended to the first of them, in one frame, and to no
    other; in a tunnel the later DNS exchanges are given no prelude. *)
Theorem prelude_at_most_once :
  (forall (d : decoder) (frame : ArrayBuffer) (h : Header),
     decode d frame = Normal (NoError h) ->
     version h = match d with
                 | Vless => Some [hd x00 frame; x00]
                 | Shadowsocks | Trojan => None
                 end) /\
  (forall (addressRemote : string) (portRemote : N) (rawClientData : ArrayBuffer)
          (responseHeader : option ArrayBuffer) (prxIP : string) (r1 r2 : remote),
     frames (handleTCPOutBound addressRemote portRemote rawClientData
               responseHeader prxIP r1 r2) =
     prelude_once responseHeader (tcp_payloads r1 r2)) /\
  (forall (targetAddress : string) (targetPort : N) (udpChunk : ArrayBuffer)
          (responseHeader : option ArrayBuffer) (r : remote),
     frames (handleUDPOutbound targetAddress targetPort udpChunk responseHeader r) =
     prelude_once responseHeader (dns_payloads r)) /\
  (forall (prxIP : string) (x : step) (rest : list step) (h : Header),
     readHeader (chunk x) = Normal (NoError h) ->
     frames (websocketHandler prxIP (x :: rest)) =
     if isUDP h then
       if portRemote h =? 53 then
         (prelude_once (version h) (dns_payloads (first_remote x)) ++
          List.concat (map (fun y => dns_payloads (first_remote y)) rest))%list
       else []
     else prelude_once (version h) (tcp_payloads (first_remote x) (retry_remote x))).
Proof.
  split; [exact decoder_version|].
  split; [exact handleTCPOutBound_frames|].
  split; [exact handleUDPOutbound_frames|].
  intros prxIP x rest h H.
  unfold websocketHandler. fold start. cbn [pipeTo].
  rewrite (write_first_chunk prxIP (chunk x) h _ _ H).
  destruct (isUDP h); [destruct (portRemote h =? 53)|]; lazy beta iota zeta.
  - now rewrite frames_app, handleUDPOutbound_frames, pipeTo_dns.
  - unfold cancel. apply frames_safeCloseWebSocket.
  - rewrite frames_app, handleTCPOutBound_frames.
    set (es := handleTCPOutBound _ _ _ _ _ _ _).
    destruct (stored es None) as [s|] eqn:Hs.
    + destruct (pipeTo_routed prxIP {| isDNS := false; remoteSocketWrapper := Some s |}
                  s rest eq_refl eq_refl) as [-> _].
      apply app_nil_r.
    + exfalso. subst es.
      destruct (handleTCPOutBound_spec (addressRemote h) (portRemote h)
                  (rawClientData h) (version h) prxIP (first_remote x)
                  (retry_remote x)) as (es1 & es2 & _ & _ & _ & _ & E).
      rewrite E in Hs. cbn [app stored] in Hs. now apply stored_set in Hs.
Qed.

(** ** The retry *)

Lemma stored_app (t u : list effect) (value : option socket) :
  stored (t ++ u) value = stored u (stored t value).
Proof.
  revert value. induction t as [|e t IH]; intros value; [reflexivity|].
  destruct e; cbn [app stored]; apply IH.
Qed.

Lemma stored_on_websocket (t : list effect) (value : option socket) :
  Forall on_websocket t -> stored t value = value.
Proof.
  induction 1 as [|e t He _ IH]; [reflexivity|].
  destruct e; cbn in He; try contradiction; exact IH.
Qed.

Lemma handleTCPOutBound_connections (addressRemote : string) (portRemote : N)
    (rawClientData : ArrayBuffer) (responseHeader : option ArrayBuffer)
    (prxIP : string) (r1 r2 : remote) :
  let first := {| hostname := addressRemote; port := PortNumber portRemote |} in
  let target := retry_target prxIP addressRemote portRemote in
  let t := handleTCPOutBound addressRemote portRemote rawClientData
             responseHeader prxIP r1 r2 in
  connects t = (first :: if delivered_nothing r1 then [target] else [])%list /\
  socket_writes t =
  ((first, rawClientData) ::
   if delivered_nothing r1 then [(target, rawClientData)] else [])%list /\
  stored t None = Some (if delivered_nothing r1 then target else first).
Proof.
  intros first target t.
  destruct (handleTCPOutBound_spec addressRemote portRemote rawClientData
              responseHeader prxIP r1 r2) as (es1 & es2 & Hw1 & Hw2 & _ & _ & E).
  fold first target t in E. rewrite E. unfold delivered_nothing.
  destruct (on_websocket_quiet es1 Hw1) as [C1 W1].
  destruct (on_websocket_quiet es2 Hw2) as [C2 W2].
  cbn [app connects socket_writes stored].
  destruct (write_ok r1); cbn [andb]; [|repeat split; reflexivity].
  rewrite !connects_app, !socket_writes_app, !stored_app, C1, W1,
    (stored_on_websocket es1 _ Hw1).
  destruct (incoming r1) as [|c rest]; [|repeat split; reflexivity].
  cbn [app connects socket_writes stored].
  destruct (write_ok r2);
    rewrite ?C2, ?W2, ?(stored_on_websocket es2 _ Hw2); repeat split; reflexivity.
Qed.



(** ** UDP and the DNS port *)

(** C5: when the header parsed from the first chunk has [isUDP], the
    tunnel goes on, into the DNS path, exactly when the port is 53; for any
    other port [write] raises, the stream is cancelled, and nothing is
    connected to or written to. *)
Theorem udp_only_on_port_53 (prxIP : string) (x : step) (rest : list step) (h : Header) :
  readHeader (chunk x) = Normal (NoError h) ->
  isUDP h = true ->
  let result := write prxIP start (chunk x) (first_remote x) (retry_remote x) in
  (portRemote h = 53 ->
   result =
   ((handleUDPOutbound DNS_SERVER_ADDRESS DNS_SERVER_PORT (chunk x)
       (version h) (first_remote x), Normal tt),
    {| isDNS := true; remoteSocketWrapper := None |})) /\
  (portRemote h <> 53 ->
   result = (([], Throw (Error "UDP only supports DNS port 53")), start) /\
   websocketHandler prxIP (x :: rest) = safeCloseWebSocket (readyState x) /\
   connects (websocketHandler prxIP (x :: rest)) = [] /\
   socket_writes (websocketHandler prxIP (x :: rest)) = []) /\
  (isDNS (snd result) = true <-> portRemote h = 53).
Proof.
  intros H Hudp result. subst result.
  unfold websocketHandler. fold start. cbn [pipeTo].
  rewrite (write_first_chunk prxIP (chunk x) h _ _ H), Hudp.
  destruct (N.eqb_spec (portRemote h) 53) as [E | E].
  - split; [reflexivity|]. split; [contradiction|]. cbn [snd isDNS]. tauto.
  - split; [contradiction|]. split.
    + intros _. split; [reflexivity|]. split; [reflexivity|].
      unfold cancel.
      apply on_websocket_quiet, safeCloseWebSocket_on_websocket.
    + cbn [snd start isDNS]. split; [discriminate | contradiction].
Qed.

(** ** Fatal errors *)



Lemma udp_pipe_on_websocket (chunks : list (N * ArrayBuffer)) (prelude : option ArrayBuffer) :
  Forall on_websocket (udp_pipe chunks prelude).
Proof.
  revert prelude. induction chunks as [|[readyState c] rest IH]; intros prelude;
    [constructor|].
  cbn [udp_pipe]. unfold udp_write.
  destruct (readyState =? WS_READY_STATE_OPEN); [destruct prelude|];
    cbn [app]; repeat constructor; apply IH.
Qed.










(** C9: a chunk arriving while the WebSocket is not open is to abort the
    relay and not be sent.  With the WebSocket CLOSED (3) or CLOSING (2) the
    sink of [remoteSocketToWS] calls [controller.error] and then still sends
    the chunk, with the prelude when it is pending; the sink of
    [handleUDPOutbound] sends nothing. *)
Theorem bridge_write_when_not_open :
  bridge_write 3 [x41] {| header := None; hasIncomingData := false; errored := false |} =
  ([ControllerError "WebSocket is not open, maybe closed"; WsSend [x41]],
   {| header := None; hasIncomingData := true; errored := true |}) /\
  bridge_write 2 [x41]
    {| header := Some [x00; x00]; hasIncomingData := false; errored := false |} =
  ([ControllerError "WebSocket is not open, maybe closed"; WsSend [x00; x00; x41]],
   {| header := None; hasIncomingData := true; errored := true |}) /\
  udp_write 3 [x41] None = ([], None).
Proof. repeat split. Qed.

(** ** Instances *)

Lemma header_then_residual_witness :
  (firstn 7 ss_scenario_frame ++ [x48; x49])%list = ss_scenario_frame /\
  (firstn 26 vless_scenario_frame ++ [x50; x41; x59])%list = vless_scenario_frame.
Proof.
  split.
  - exact (proj1 (header_then_residual Shadowsocks ss_scenario_frame
                    {| addressRemote := "10.0.0.1"; addressType := Some 1;
                       portRemote := 80; rawClientData := [x48; x49];
                       version := None; isUDP := false |} eq_refl)).
  - exact (proj1 (header_then_residual Vless vless_scenario_frame
                    {| addressRemote := "foo"; addressType := Some 2;
                       portRemote := 443; rawClientData := [x50; x41; x59];
                       version := Some [x00; x00]; isUDP := false |} eq_refl)).
Defined.


Lemma prelude_at_most_once_witness :
  version {| addressRemote := "foo"; addressType := Some 2; portRemote := 443;
             rawClientData := [x50; x41; x59]; version := Some [x00; x00];
             isUDP := false |} = Some [hd x00 vless_scenario_frame; x00] /\
  frames (websocketHandler "example.org-8443"
            [one_step ss_dns_frame (answering [x52]) (silent EndClosed 1);
             one_step [x51] (answering [x53]) (silent EndClosed 1)])
    = [[x52]; [x53]].
Proof.
  destruct prelude_at_most_once as (Hv & _ & _ & Ht).
  split.
  - exact (Hv Vless vless_scenario_frame _ eq_refl).
  - exact (Ht "example.org-8443"%string
              (one_step ss_dns_frame (answering [x52]) (silent EndClosed 1))
              [one_step [x51] (answering [x53]) (silent EndClosed 1)]
              {| addressRemote := "8.8.8.8"; addressType := Some 1;
                 portRemote := 53; rawClientData := [x51];
                 version := None; isUDP := true |} eq_refl).
Defined.

Lemma udp_only_on_port_53_witness :
  websocketHandler "example.org-8443"
    [one_step trojan_udp_frame (silent EndClosed 1) (silent EndClosed 1)] = [WsClose] /\
  isDNS (snd (write "example.org-8443" start ss_dns_frame
                (silent EndClosed 1) (silent EndClosed 1))) = true.
Proof.
  split.
  - refine (proj1 (proj2 (proj1 (proj2 (udp_only_on_port_53 "example.org-8443"
              (one_step trojan_udp_frame (silent EndClosed 1) (silent EndClosed 1)) []
              {| addressRemote := "1.2.3.4"; addressType := None;
                 portRemote := 443; rawClientData := [];
                 version := None; isUDP := true |} eq_refl eq_refl)) _)));
      discriminate.
  - refine (proj2 (proj2 (proj2 (udp_only_on_port_53 "example.org-8443"
              (one_step ss_dns_frame (silent EndClosed 1) (silent EndClosed 1)) []
              {| addressRemote := "8.8.8.8"; addressType := Some 1;
                 portRemote := 53; rawClientData := [x51];
                 version := None; isUDP := true |} eq_refl eq_refl))) eq_refl).
Defined.




(** * Further properties *)

(** ** The Trojan decoder on well-formed frames *)

Lemma readHorseHeader_short (buffer : ArrayBuffer) :
  byteLength buffer < 64 ->
  readHorseHeader buffer = Normal (HasError "Invalid Trojan request data").
Proof.
  intros H. unfold readHorseHeader.
  replace (byteLength (slice_from buffer 58) <? 6) with true; [reflexivity|].
  symmetry. apply N.ltb_lt. unfold byteLength, slice_from in *.
  cbn [ToIntegerOrInfinity]. rewrite length_skipn. lia.
Qed.

Lemma slice_from_beyond (pre rest : ArrayBuffer) (b : N) (k : nat) :
  N.to_nat b = (List.length pre + k)%nat ->
  slice_from (pre ++ rest) b = skipn k rest.
Proof.
  intros Hb. unfold slice_from; cbn [ToIntegerOrInfinity].
  rewrite Hb, skipn_app, skipn_all2 by lia.
  cbn [app]. f_equal. lia.
Qed.

Section Trojan.
Variables (cmd hi lo : byte) (hash crlf : ArrayBuffer).
Hypothesis Hhash : List.length hash = 56%nat.
Hypothesis Hcrlf : List.length crlf = 2%nat.

Ltac horse_prefix body :=
  unfold readHorseHeader;
  rewrite (slice_from_eq _ (hash ++ crlf)%list body 58)
    by (layout || (rewrite length_app, Hhash, Hcrlf; reflexivity));
  replace (byteLength body <? 6) with false
    by (symmetry; apply N.ltb_ge; unfold byteLength;
        rewrite ?length_app; cbn [List.length]; lia);
  change (getUint8 body 0) with (Normal (Byte.to_N cmd));
  lazy beta iota zeta delta [bind js_add].

Lemma horse_unsupported (a b c d e : byte) (rest : ArrayBuffer) :
  Byte.to_N cmd <> 1 -> Byte.to_N cmd <> 3 ->
  readHorseHeader (hash ++ crlf ++ [cmd; a; b; c; d; e] ++ rest) =
  Normal (HasError ("Unsupported Trojan command: " ++ toString10 (Byte.to_N cmd))).
Proof.
  intros H1 H3. horse_prefix ([cmd; a; b; c; d; e] ++ rest)%list.
  apply N.eqb_neq in H1, H3. now rewrite H1, H3.
Qed.

Hypothesis Hcmd : Byte.to_N cmd = 1 \/ Byte.to_N cmd = 3.

Ltac horse_command :=
  destruct Hcmd as [E | E]; rewrite E;
  change (1 =? 3) with false; change (3 =? 3) with true;
  change (1 =? 1) with true; cbn [negb];
  lazy beta iota.

Ltac horse_tag n :=
  match goal with
  | |- context [getUint8 ?b 1] => change (getUint8 b 1) with (Normal (A:=N) n)
  end;
  lazy beta iota zeta delta [bind js_add];
  change (1 =? 1) with true; change (3 =? 1) with false;
  change (3 =? 3) with true; change (4 =? 1) with false;
  change (4 =? 3) with false; change (4 =? 4) with true;
  lazy beta iota.

Lemma horse_ipv4 (a b c d : byte) (rest : ArrayBuffer) :
  readHorseHeader (hash ++ crlf ++ [cmd; x01; a; b; c; d; hi; lo] ++ rest) =
  Normal (NoError {|
    addressRemote := ipv4_text a b c d;
    addressType := None;
    portRemote := u16 hi lo;
    rawClientData := skipn 2 rest;
    version := None;
    isUDP := Byte.to_N cmd =? 3 |}).
Proof.
  horse_prefix ([cmd; x01; a; b; c; d; hi; lo] ++ rest)%list.
  horse_command.
  all: horse_tag 1.
  all: slice_at [cmd; x01] [a; b; c; d] ([hi; lo] ++ rest)%list.
  all: change (Uint8Array_join "." [a; b; c; d]) with (ipv4_text a b c d).
  all: replace (is_empty (ipv4_text a b c d)) with false
    by (symmetry; unfold ipv4_text; apply is_empty_append_r; reflexivity).
  all: slice_at [cmd; x01; a; b; c; d] [hi; lo] rest.
  all: rewrite getUint16_pair.
  all: reflexivity.
Qed.

Lemma horse_domain (len : byte) (name rest : ArrayBuffer) :
  List.length name = N.to_nat (Byte.to_N len) ->
  (1 <= List.length name + List.length rest)%nat ->
  readHorseHeader (hash ++ crlf ++ [cmd; x03; len] ++ name ++ [hi; lo] ++ rest) =
  if is_empty (TextDecoder_decode name) then
    Normal (HasError "Empty Trojan address, type: 3")
  else
    Normal (NoError {|
      addressRemote := TextDecoder_decode name;
      addressType := None;
      portRemote := u16 hi lo;
      rawClientData := skipn 2 rest;
      version := None;
      isUDP := Byte.to_N cmd =? 3 |}).
Proof.
  intros Hname Hmin.
  horse_prefix ([cmd; x03; len] ++ name ++ [hi; lo] ++ rest)%list.
  horse_command.
  all: horse_tag 3.
  all: change (Uint8Array_get (slice _ 2 (2 + 1)) 0) with (Some (Byte.to_N len)).
  all: lazy beta iota zeta delta [ToNumber js_add].
  all: slice_at [cmd; x03; len] name ([hi; lo] ++ rest)%list.
  all: destruct (is_empty (TextDecoder_decode name)); [reflexivity|].
  all: slice_at ([cmd; x03; len] ++ name)%list [hi; lo] rest.
  all: rewrite getUint16_pair.
  all: lazy beta iota zeta delta [bind].
  all: rewrite !app_assoc.
  all: rewrite (slice_from_beyond _ rest _ 2) by sizes.
  all: reflexivity.
Qed.

Lemma horse_ipv6 (addr rest : ArrayBuffer) :
  List.length addr = 16%nat ->
  readHorseHeader (hash ++ crlf ++ [cmd; x04] ++ addr ++ [hi; lo] ++ rest) =
  Normal (NoError {|
    addressRemote := "[" ++ ipv6_text addr ++ "]";
    addressType := None;
    portRemote := u16 hi lo;
    rawClientData := skipn 2 rest;
    version := None;
    isUDP := Byte.to_N cmd =? 3 |}).
Proof.
  intros Haddr.
  horse_prefix ([cmd; x04] ++ addr ++ [hi; lo] ++ rest)%list.
  horse_command.
  all: horse_tag 4.
  all: slice_at [cmd; x04] addr ([hi; lo] ++ rest)%list.
  all: rewrite ipv6_groups_16 by assumption.
  all: lazy beta iota zeta delta [bind].
  all: fold (ipv6_text addr).
  all: change (is_empty ("[" ++ ipv6_text addr ++ "]")) with false; lazy iota.
  all: slice_at ([cmd; x04] ++ addr)%list [hi; lo] rest.
  all: rewrite getUint16_pair.
  all: lazy beta iota zeta delta [bind].
  all: rewrite !app_assoc.
  all: rewrite (slice_from_beyond _ rest _ 2) by sizes.
  all: reflexivity.
Qed.
End Trojan.

(** X1: the Trojan decoder on a frame laid out as hash (56 bytes), two
    bytes, cmd, atyp, address, port, two bytes, residual.  Fewer than six
    bytes after offset 58 are refused; so is a command other than 1 and 3.
    Otherwise tag 1 gives the dotted IPv4 text, tag 3 the decoded domain
    (refused when empty), tag 4 the bracketed hex groups; the port is the
    big-endian value after the address, [isUDP] tells whether the command
    was 3, and the residual is what follows the two bytes after the port,
    which are skipped unread and may be missing. *)
Theorem readHorseHeader_spec (cmd hi lo : byte) (hash crlf : ArrayBuffer) :
  List.length hash = 56%nat -> List.length crlf = 2%nat ->
  (forall buffer : ArrayBuffer,
     byteLength buffer < 64 ->
     readHorseHeader buffer = Normal (HasError "Invalid Trojan request data")) /\
  (Byte.to_N cmd <> 1 -> Byte.to_N cmd <> 3 ->
   forall (a b c d e : byte) (rest : ArrayBuffer),
     readHorseHeader (hash ++ crlf ++ [cmd; a; b; c; d; e] ++ rest) =
     Normal (HasError
               ("Unsupported Trojan command: " ++ toString10 (Byte.to_N cmd)))) /\
  (Byte.to_N cmd = 1 \/ Byte.to_N cmd = 3 ->
   (forall (a b c d : byte) (rest : ArrayBuffer),
      readHorseHeader (hash ++ crlf ++ [cmd; x01; a; b; c; d; hi; lo] ++ rest) =
      Normal (NoError {|
        addressRemote := ipv4_text a b c d;
        addressType := None;
        portRemote := u16 hi lo;
        rawClientData := skipn 2 rest;
        version := None;
        isUDP := Byte.to_N cmd =? 3 |})) /\
   (forall (len : byte) (name rest : ArrayBuffer),
      List.length name = N.to_nat (Byte.to_N len) ->
      (1 <= List.length name + List.length rest)%nat ->
      readHorseHeader (hash ++ crlf ++ [cmd; x03; len] ++ name ++ [hi; lo] ++ rest) =
      if is_empty (TextDecoder_decode name) then
        Normal (HasError "Empty Trojan address, type: 3")
      else
        Normal (NoError {|
          addressRemote := TextDecoder_decode name;
          addressType := None;
          portRemote := u16 hi lo;
          rawClientData := skipn 2 rest;
          version := None;
          isUDP := Byte.to_N cmd =? 3 |})) /\
   (forall (addr rest : ArrayBuffer),
      List.length addr = 16%nat ->
      readHorseHeader (hash ++ crlf ++ [cmd; x04] ++ addr ++ [hi; lo] ++ rest) =
      Normal (NoError {|
        addressRemote := "[" ++ ipv6_text addr ++ "]";
        addressType := None;
        portRemote := u16 hi lo;
        rawClientData := skipn 2 rest;
        version := None;
        isUDP := Byte.to_N cmd =? 3 |}))).
Proof.
  intros Hhash Hcrlf. split; [exact readHorseHeader_short|]. split.
  - intros H1 H3 a b c d e rest. now apply horse_unsupported.
  - intros Hcmd. split; [|split].
    + intros a b c d rest. now apply horse_ipv4.
    + intros len name rest Hn Hm. now apply horse_domain.
    + intros addr rest Ha. now apply horse_ipv6.
Qed.

Lemma readHorseHeader_spec_witness :
  readHorseHeader (repeat x00 56 ++ [x0d; x0a] ++ [x05; x01; x01; x02; x03; x04] ++ []) =
    Normal (HasError "Unsupported Trojan command: 5") /\
  readHorseHeader
    (repeat x00 56 ++ [x0d; x0a] ++ [x03; x03; x01] ++ [x61] ++ [x00; x35] ++ [x0d]) =
    Normal (NoError {|
      addressRemote := "a";
      addressType := None;
      portRemote := 53;
      rawClientData := [];
      version := None;
      isUDP := true |}) /\
  readHorseHeader
    (repeat x00 56 ++ [x0d; x0a] ++ [x01; x04] ++ repeat x00 16 ++ [x01; xbb] ++
     [x41; x42; x43]) =
    Normal (NoError {|
      addressRemote := "[0:0:0:0:0:0:0:0]";
      addressType := None;
      portRemote := 443;
      rawClientData := [x43];
      version := None;
      isUDP := false |}).
Proof.
  split; [|split].
  - refine (proj1 (proj2 (readHorseHeader_spec x05 x00 x00 (repeat x00 56)
              [x0d; x0a] eq_refl eq_refl)) _ _ x01 x01 x02 x03 x04 []);
      discriminate.
  - refine (proj1 (proj2 (proj2 (proj2 (readHorseHeader_spec x03 x00 x35
              (repeat x00 56) [x0d; x0a] eq_refl eq_refl)) (or_intror eq_refl)))
              x01 [x61] [x0d] eq_refl _). cbn. apply le_n_S, Nat.le_0_l.
  - refine (proj2 (proj2 (proj2 (proj2 (readHorseHeader_spec x01 x01 xbb
              (repeat x00 56) [x0d; x0a] eq_refl eq_refl)) (or_introl eq_refl)))
              (repeat x00 16) [x41; x42; x43] eq_refl).
Defined.

(** ** What the sniffer hands to the decoders *)

Lemma strict_eq_true (x : element) (n : N) : strict_eq x n = true -> x = Some n.
Proof.
  destruct x as [m|]; cbn; [|discriminate].
  intros H. apply N.eqb_eq in H. now subst.
Qed.

Lemma protocolSniffer_trojan_inv (buffer : ArrayBuffer) :
  protocolSniffer buffer = Some "trojan"%string ->
  62 <= byteLength buffer /\
  exists cmd atyp,
    nth_error buffer 58 = Some cmd /\ nth_error buffer 59 = Some atyp /\
    (Byte.to_N cmd = 1 \/ Byte.to_N cmd = 3 \/ Byte.to_N cmd = 127) /\
    (Byte.to_N atyp = 1 \/ Byte.to_N atyp = 3 \/ Byte.to_N atyp = 4).
Proof.
  unfold protocolSniffer. rewrite uuid_test_on_hex.
  destruct (N.leb_spec 62 (byteLength buffer)) as [Hlen|]; [|discriminate].
  rewrite !Uint8Array_get_slice by reflexivity.
  change (N.to_nat (56 + 2)) with 58%nat. change (N.to_nat (56 + 3)) with 59%nat.
  destruct (nth_error buffer 58) as [cmd|]; cbn [option_map];
    [|rewrite !andb_false_r; discriminate].
  destruct (nth_error buffer 59) as [atyp|]; cbn [option_map];
    [|rewrite !andb_false_r; discriminate].
  match goal with |- (if ?c then _ else _) = _ -> _ => destruct c eqn:M end;
    [|discriminate].
  intros _. split; [assumption|]. exists cmd, atyp.
  apply andb_true_iff in M as [M M4]. apply andb_true_iff in M as [_ M3].
  unfold strict_eq in M3, M4. rewrite !orb_true_iff, !N.eqb_eq in M3, M4.
  repeat split; tauto.
Qed.

Lemma nth_error_byteLength (buffer : ArrayBuffer) (i : nat) (b : byte) :
  nth_error buffer i = Some b -> N.of_nat i < byteLength buffer.
Proof.
  intros H. assert (i < List.length buffer)%nat
    by (apply nth_error_Some; congruence).
  unfold byteLength. lia.
Qed.

(** X2: on a chunk the sniffer calls Trojan, the Trojan decoder never
    reports an invalid address type (the sniffer has seen a tag among 1, 3,
    4); and when the command byte is 0x7F, which the sniffer lets through,
    the decoder always refuses the chunk: as too short below 64 bytes, as an
    unsupported command from 64 bytes on. *)
Theorem sniffed_trojan_decoding (buffer : ArrayBuffer) :
  protocolSniffer buffer = Some "trojan"%string ->
  (forall n : N,
     readHorseHeader buffer <>
     Normal (HasError ("Invalid Trojan addressType: " ++ toString10 n))) /\
  (nth_error buffer 58 = Some x7f ->
   readHorseHeader buffer =
   Normal (HasError (if byteLength buffer <? 64 then "Invalid Trojan request data"
                     else "Unsupported Trojan command: 127"))).
Proof.
  intros Hs. destruct (protocolSniffer_trojan_inv buffer Hs)
    as (Hlen & cmd & atyp & H58 & H59 & Hcmd & Hatyp).
  assert (E58 : getUint8 (slice_from buffer 58) 0 = Normal (Byte.to_N cmd)).
  { unfold getUint8, slice_from; cbn [ToIntegerOrInfinity].
    rewrite nth_error_skipn. change (N.to_nat 58 + N.to_nat 0)%nat with 58%nat.
    now rewrite H58. }
  assert (E59 : getUint8 (slice_from buffer 58) 1 = Normal (Byte.to_N atyp)).
  { unfold getUint8, slice_from; cbn [ToIntegerOrInfinity].
    rewrite nth_error_skipn. change (N.to_nat 58 + N.to_nat 1)%nat with 59%nat.
    now rewrite H59. }
  split.
  - intros n. unfold readHorseHeader, not.
    destruct (byteLength (slice_from buffer 58) <? 6); [discriminate|].
    rewrite E58. cbn [bind].
    destruct (Byte.to_N cmd =? 3); [|destruct (negb _); [discriminate|]].
    all: rewrite E59; cbn [bind].
    all: destruct Hatyp as [Ea | [Ea | Ea]]; rewrite Ea.
    all: change (1 =? 1) with true; change (3 =? 1) with false;
      change (3 =? 3) with true; change (4 =? 1) with false;
      change (4 =? 3) with false; change (4 =? 4) with true; lazy beta iota.
    all: walk_decoder.
    all: cbn [append]; discriminate.
  - intros H7. rewrite H58 in H7. injection H7 as ->.
    unfold readHorseHeader.
    assert (L : byteLength (slice_from buffer 58) = byteLength buffer - 58).
    { unfold byteLength, slice_from; cbn [ToIntegerOrInfinity].
      rewrite length_skipn. lia. }
    rewrite L.
    destruct (N.ltb_spec (byteLength buffer) 64) as [Hs64 | Hs64].
    + replace (byteLength buffer - 58 <? 6) with true
        by (symmetry; apply N.ltb_lt; lia).
      reflexivity.
    + replace (byteLength buffer - 58 <? 6) with false
        by (symmetry; apply N.ltb_ge; lia).
      rewrite E58. reflexivity.
Qed.

(** ** The decoder [write] runs *)

Lemma readHeader_dispatch (c : ArrayBuffer) :
  readHeader c =
  if same_protocol (protocolSniffer c) (Some "trojan"%string)
  then readHorseHeader c else readSsHeader c.
Proof.
  unfold readHeader.
  destruct (protocolSniffer_never_vless c) as [-> | ->]; reflexivity.
Qed.

Lemma readHeader_no_prelude (c : ArrayBuffer) (h : Header) :
  readHeader c = Normal (NoError h) -> version h = None.
Proof.
  rewrite readHeader_dispatch.
  destruct (same_protocol _ _); intros H.
  - exact (decoder_version Trojan c h H).
  - exact (decoder_version Shadowsocks c h H).
Qed.

Lemma relayed_incl (chunks : list (N * ArrayBuffer)) :
  incl (relayed chunks) (map snd chunks).
Proof.
  induction chunks as [|[readyState c] rest IH]; [apply incl_nil_l|].
  cbn [relayed map snd]. apply incl_cons; [now left|].
  destruct (readyState =? WS_READY_STATE_OPEN);
    [apply incl_tl; exact IH | apply incl_nil_l].
Qed.

Lemma tcp_payloads_incl (r1 r2 : remote) :
  incl (tcp_payloads r1 r2) (sent_by r1 ++ sent_by r2).
Proof.
  unfold tcp_payloads, sent_by.
  destruct (write_ok r1); [|apply incl_nil_l].
  destruct (incoming r1) as [|c rest] eqn:E.
  - destruct (write_ok r2); [|apply incl_nil_l].
    apply incl_appr, relayed_incl.
  - rewrite <- E. apply incl_appl, relayed_incl.
Qed.

Lemma dns_payloads_incl (r : remote) : incl (dns_payloads r) (sent_by r).
Proof.
  unfold dns_payloads, sent_by. destruct (write_ok r); [|apply incl_nil_l].
  intros x Hx. apply in_map_iff in Hx as (c & <- & Hc).
  apply filter_In in Hc as [Hc _]. now apply in_map.
Qed.

Lemma write_frames (prxIP : string) (st : tunnel) (c : ArrayBuffer)
    (r1 r2 : remote) (es : list effect) :
  fst (fst (write prxIP st c r1 r2)) = es ->
  incl (frames es) (sent_by r1 ++ sent_by r2).
Proof.
  unfold write.
  destruct (isDNS st).
  { intros <-. cbn [fst]. rewrite handleUDPOutbound_frames. cbn [prelude_once].
    apply incl_appl, dns_payloads_incl. }
  destruct (remoteSocketWrapper st).
  { intros <-. apply incl_nil_l. }
  destruct (readHeader c) as [[m|h]|e] eqn:Hh; try (intros <-; apply incl_nil_l).
  pose proof (readHeader_no_prelude c h Hh) as Hv.
  destruct (isUDP h); [destruct (portRemote h =? 53)|];
    intros <-; cbn [fst frames]; try apply incl_nil_l.
  - rewrite handleUDPOutbound_frames, Hv. apply incl_appl, dns_payloads_incl.
  - rewrite handleTCPOutBound_frames, Hv. apply tcp_payloads_incl.
Qed.

(** X3: [write] decodes a first chunk with the Trojan or the Shadowsocks
    decoder only, never with the VLESS one and never raising "Unknown
    Protocol!"; and every frame a tunnel sends to the client is, byte for
    byte, a chunk delivered by one of its remote ends. *)
Theorem frames_are_remote_chunks :
  (forall c : ArrayBuffer,
     readHeader c =
     if same_protocol (protocolSniffer c) (Some "trojan"%string)
     then readHorseHeader c else readSsHeader c) /\
  (forall (prxIP : string) (steps : list step),
     incl (frames (websocketHandler prxIP steps))
          (List.concat
             (map (fun x => sent_by (first_remote x) ++ sent_by (retry_remote x))
                steps))%list).
Proof.
  split; [exact readHeader_dispatch|].
  intros prxIP steps.
  unfold websocketHandler. generalize start as st.
  induction steps as [|x rest IH]; intros st; [apply incl_nil_l|].
  cbn [pipeTo map List.concat].
  pose proof (write_frames prxIP st (chunk x) (first_remote x) (retry_remote x)
                _ eq_refl) as W.
  destruct (write prxIP st (chunk x) (first_remote x) (retry_remote x))
    as [[es [[]|e]] st']; cbn [fst] in W; rewrite frames_app; apply incl_app.
  - apply incl_appl, W.
  - apply incl_appr, IH.
  - apply incl_appl, W.
  - unfold cancel. rewrite frames_safeCloseWebSocket. apply incl_nil_l.
Qed.

(** ** After the first chunk *)

(** X4: once a remote socket is stored, the client's chunks are written to
    it unchanged and in order, one write per chunk, nothing being parsed or
    sent to the client; the first write that is rejected has been called
    like the others, and after it the stream is cancelled, the WebSocket is
    closed safely and no later chunk is written. *)
Theorem routed_chunks_in_order (prxIP : string) (st : tunnel) (s : socket)
    (steps : list step) :
  isDNS st = false -> remoteSocketWrapper st = Some s ->
  pipeTo prxIP st steps =
  (map (fun x => SocketWrite s (chunk x)) (attempted steps) ++
   match rejected_at steps with
   | Some x => safeCloseWebSocket (readyState x)
   | None => []
   end)%list.
Proof.
  intros Hdns Hs. induction steps as [|x rest IH]; [reflexivity|].
  cbn [pipeTo attempted rejected_at]. unfold write. rewrite Hdns, Hs.
  destruct (write_ok (first_remote x)); cbn [map app]; [|reflexivity].
  now rewrite IH.
Qed.

Lemma connects_udp_pipe (chunks : list (N * ArrayBuffer)) (prelude : option ArrayBuffer) :
  connects (udp_pipe chunks prelude) = [] /\ socket_writes (udp_pipe chunks prelude) = [].
Proof.
  apply on_websocket_quiet, udp_pipe_on_websocket.
Qed.

Lemma handleUDPOutbound_socket (a : string) (p : N) (c : ArrayBuffer)
    (prelude : option ArrayBuffer) (r : remote) :
  let s := {| hostname := a; port := PortNumber p |} in
  connects (handleUDPOutbound a p c prelude r) = [s] /\
  socket_writes (handleUDPOutbound a p c prelude r) = [(s, c)] /\
  ~ In WsClose (handleUDPOutbound a p c prelude r).
Proof.
  unfold handleUDPOutbound. cbn [app connects socket_writes].
  destruct (write_ok r).
  - destruct (connects_udp_pipe (incoming r) prelude) as [-> ->].
    split; [reflexivity|]. split; [reflexivity|].
    intros [H|[H|H]]; try discriminate.
    revert prelude H. induction (incoming r) as [|[rs ch] rest IH]; intros prelude H;
      [exact H|].
    cbn [udp_pipe] in H. unfold udp_write in H.
    destruct (rs =? WS_READY_STATE_OPEN); [destruct prelude|];
      cbn [app In] in H; try destruct H as [H|H]; try discriminate; eauto.
  - split; [reflexivity|]. split; [reflexivity|].
    intros [H|[H|[]]]; discriminate.
Qed.

Lemma dns_chunks_each_a_connection (prxIP : string) (st : tunnel) (steps : list step) :
  isDNS st = true ->
  let t := pipeTo prxIP st steps in
  connects t = map (fun _ => dns_socket) steps /\
  socket_writes t = map (fun x => (dns_socket, chunk x)) steps /\
  ~ In WsClose t.
Proof.
  intros Hdns. induction steps as [|x rest (IHc & IHw & IHn)];
    [repeat split; intros []|].
  cbn [pipeTo map]. unfold write. rewrite Hdns.
  destruct (handleUDPOutbound_socket DNS_SERVER_ADDRESS DNS_SERVER_PORT (chunk x)
              None (first_remote x)) as (Hc & Hw & Hn).
  rewrite connects_app, socket_writes_app, Hc, Hw, IHc, IHw.
  split; [reflexivity|]. split; [reflexivity|].
  intros H. apply in_app_or in H as [H|H]; auto.
Qed.

(** X5: in a tunnel whose first chunk asks for UDP on port 53, every client
    chunk, the first one whole with its header, is written to a connection
    of its own to the configured DNS server, and the tunnel never closes
    the WebSocket, whatever the DNS connections do. *)
Theorem dns_tunnel_forwards_whole_chunks (prxIP : string) (x : step)
    (rest : list step) (h : Header) :
  readHeader (chunk x) = Normal (NoError h) ->
  isUDP h = true -> portRemote h = 53 ->
  let t := websocketHandler prxIP (x :: rest) in
  connects t = map (fun _ => dns_socket) (x :: rest) /\
  socket_writes t = map (fun y => (dns_socket, chunk y)) (x :: rest) /\
  ~ In WsClose t.
Proof.
  intros H Hudp Hport. unfold websocketHandler. cbn [pipeTo].
  rewrite (write_first_chunk prxIP (chunk x) h _ _ H), Hudp, Hport.
  change (53 =? 53) with true. lazy beta iota.
  destruct (handleUDPOutbound_socket DNS_SERVER_ADDRESS DNS_SERVER_PORT (chunk x)
              (version h) (first_remote x)) as (Hc & Hw & Hn).
  destruct (dns_chunks_each_a_connection prxIP
              {| isDNS := true; remoteSocketWrapper := None |} rest eq_refl)
    as (Rc & Rw & Rn).
  rewrite connects_app, socket_writes_app, Hc, Hw, Rc, Rw.
  split; [reflexivity|]. split; [reflexivity|].
  intros Hin. apply in_app_or in Hin as [Hin|Hin]; auto.
Qed.

(** ** What a decoded header always satisfies *)

Lemma getUint16_bound (buffer : ArrayBuffer) (i p : N) :
  getUint16 buffer i = Normal p -> p < 65536.
Proof.
  unfold getUint16.
  destruct (nth_error buffer (N.to_nat i)) as [hi|]; [|discriminate].
  destruct (nth_error buffer (N.to_nat (i + 1))) as [lo|]; [|discriminate].
  intros H. assert (E : p = 256 * Byte.to_N hi + Byte.to_N lo) by congruence.
  pose proof (Byte.to_N_bounded hi). pose proof (Byte.to_N_bounded lo). lia.
Qed.

Ltac walk_keeping :=
  repeat match goal with
         | |- (if ?c then _ else _) = _ -> _ => destruct c eqn:?
         | |- bind ?c _ = _ -> _ => destruct c eqn:?; cbn [bind]
         end;
  try discriminate.

Ltac header_is :=
  let H := fresh in
  intros H;
  match type of H with
  | Normal (NoError ?r) = Normal (NoError ?h) =>
      assert (h = r) by congruence; subst h; clear H
  end;
  cbn [addressRemote portRemote isUDP].

(** X6: whatever a decoder returns as a header has a non-empty address and
    a port below 65536; from the Shadowsocks decoder, [isUDP] is exactly
    [port = 53]. *)
Theorem decoded_header_invariants (d : decoder) (frame : ArrayBuffer) (h : Header) :
  decode d frame = Normal (NoError h) ->
  is_empty (addressRemote h) = false /\
  portRemote h < 65536 /\
  (d = Shadowsocks -> isUDP h = (portRemote h =? 53)).
Proof.
  destruct d; cbn [decode].
  - unfold readSsHeader. walk_keeping; header_is;
      (split; [assumption|]; split; [eapply getUint16_bound; eassumption | reflexivity]).
  - unfold readFlashHeader. walk_keeping; header_is;
      (split; [assumption|]; split; [eapply getUint16_bound; eassumption | discriminate]).
  - unfold readHorseHeader. walk_keeping; header_is;
      (split; [assumption|]; split; [eapply getUint16_bound; eassumption | discriminate]).
Qed.

(** ** Domain names *)

Lemma utf8_run_ascii (bytes : list byte) :
  Forall (fun b => Byte.to_N b < 128) bytes ->
  utf8_run bytes [] 0%nat 0x80 0xbf = bytes.
Proof.
  induction 1 as [|b rest Hb _ IH]; [reflexivity|].
  cbn [utf8_run]. unfold utf8_lead, in_range.
  replace (Byte.to_N b <=? 127) with true by (symmetry; apply N.leb_le; lia).
  replace (0 <=? Byte.to_N b) with true by (symmetry; apply N.leb_le; lia).
  cbn [andb]. now rewrite IH.
Qed.

Lemma TextDecoder_decode_ascii (bytes : list byte) :
  Forall (fun b => Byte.to_N b < 128) bytes ->
  TextDecoder_decode bytes = string_of_list_byte bytes.
Proof.
  intros H. unfold TextDecoder_decode.
  replace (strip_bom bytes) with bytes.
  - now rewrite utf8_run_ascii.
  - destruct H as [|b rest Hb _]; [reflexivity|].
    destruct b; try reflexivity. vm_compute in Hb. discriminate.
Qed.

Lemma ascii_name_not_empty (name : list byte) :
  Forall (fun b => Byte.to_N b < 128) name -> name <> [] ->
  TextDecoder_decode name = string_of_list_byte name /\
  is_empty (TextDecoder_decode name) = false.
Proof.
  intros Ha Hn. rewrite TextDecoder_decode_ascii by assumption.
  split; [reflexivity|]. destruct name; [congruence | reflexivity].
Qed.

(** X7: a domain name made of ASCII bytes is returned as those very
    characters by each of the three decoders. *)
Theorem ascii_domain_unchanged (len hi lo : byte) (name : list byte) :
  Forall (fun b => Byte.to_N b < 128) name -> name <> [] ->
  List.length name = N.to_nat (Byte.to_N len) ->
  (forall residual : ArrayBuffer,
     exists h,
       readSsHeader ([x03; len] ++ name ++ [hi; lo] ++ residual) = Normal (NoError h) /\
       addressRemote h = string_of_list_byte name) /\
  (forall (v optLen cmd : byte) (uuid opts residual : ArrayBuffer),
     List.length uuid = 16%nat ->
     List.length opts = N.to_nat (Byte.to_N optLen) ->
     Byte.to_N cmd = 1 \/ Byte.to_N cmd = 2 ->
     exists h,
       readFlashHeader (([v] ++ uuid ++ [optLen] ++ opts) ++
                        [cmd; hi; lo; x02; len] ++ name ++ residual)
       = Normal (NoError h) /\
       addressRemote h = string_of_list_byte name) /\
  (forall (cmd : byte) (hash crlf rest : ArrayBuffer),
     List.length hash = 56%nat -> List.length crlf = 2%nat ->
     Byte.to_N cmd = 1 \/ Byte.to_N cmd = 3 ->
     exists h,
       readHorseHeader (hash ++ crlf ++ [cmd; x03; len] ++ name ++ [hi; lo] ++ rest)
       = Normal (NoError h) /\
       addressRemote h = string_of_list_byte name).
Proof.
  intros Ha Hn Hl. destruct (ascii_name_not_empty name Ha Hn) as [Ed Ee].
  split; [|split].
  - intros residual. eexists. rewrite (ss_domain len hi lo name residual Hl), Ee.
    split; [reflexivity | exact Ed].
  - intros v optLen cmd uuid opts residual Hu Ho Hc. eexists.
    rewrite (flash_domain v optLen cmd hi lo uuid opts Hu Ho Hc len name residual Hl), Ee.
    split; [reflexivity | exact Ed].
  - intros cmd hash crlf rest Hh Hcr Hc. eexists.
    rewrite (horse_domain cmd hi lo hash crlf Hh Hcr Hc len name rest Hl), Ee.
    + split; [reflexivity | exact Ed].
    + destruct name; [congruence | cbn; lia].
Qed.

Lemma ascii_domain_unchanged_witness :
  exists h,
    readSsHeader ([x03; x03] ++ [x66; x6f; x6f] ++ [x01; xbb] ++ [x48; x49])
    = Normal (NoError h) /\
    addressRemote h = "foo"%string.
Proof.
  refine (proj1 (ascii_domain_unchanged x03 x01 xbb [x66; x6f; x6f] _ _ eq_refl)
            [x48; x49]).
  - repeat constructor.
  - discriminate.
Defined.

(** ** Where the retry goes *)

Lemma before_delimiter_field (a tail : string) :
  delimiter_free a = true -> delimited tail ->
  before_delimiter (a ++ tail) = a.
Proof.
  intros Ha Ht. induction a as [|x a IH]; cbn in *.
  - destruct tail as [|c t]; [reflexivity|]. cbn in *. now rewrite Ht.
  - apply andb_true_iff in Ha as [Hx Ha]. apply negb_true_iff in Hx.
    now rewrite Hx, IH.
Qed.

Lemma after_delimiter_field (a : string) (d : ascii) (tail : string) :
  delimiter_free a = true -> is_hint_delimiter d = true ->
  after_delimiter (a ++ String d tail) = Some tail.
Proof.
  intros Ha Hd. induction a as [|x a IH]; cbn in *.
  - now rewrite Hd.
  - apply andb_true_iff in Ha as [Hx Ha]. apply negb_true_iff in Hx.
    now rewrite Hx, IH.
Qed.

Lemma after_delimiter_none (a : string) :
  delimiter_free a = true -> after_delimiter a = None.
Proof.
  induction a as [|x a IH]; cbn; [reflexivity|].
  intros Ha. apply andb_true_iff in Ha as [Hx Ha]. apply negb_true_iff in Hx.
  now rewrite Hx, IH.
Qed.

(** X8: with a hint [host d port ...], where [d] is the first of [:], [=],
    [-] in it and [port] runs to the next delimiter or the end, the retry
    connects to [host] (the parsed address when [host] is empty) and passes
    [port] as a string (the parsed port, a number, when [port] is empty);
    what follows a second delimiter is ignored.  A hint without delimiter
    is a host, retried on the parsed port. *)
Theorem retry_follows_hint (addressRemote : string) (portRemote : N)
    (rawClientData : ArrayBuffer) (responseHeader : option ArrayBuffer)
    (host port_text tail : string) (d : ascii) (r1 r2 : remote) :
  delimiter_free host = true -> delimiter_free port_text = true ->
  is_hint_delimiter d = true -> delimited tail ->
  write_ok r1 = true -> incoming r1 = [] ->
  let first := {| hostname := addressRemote; port := PortNumber portRemote |} in
  connects (handleTCPOutBound addressRemote portRemote rawClientData responseHeader
              (host ++ String d (port_text ++ tail)) r1 r2) =
    [first;
     {| hostname := if is_empty host then addressRemote else host;
        port := if is_empty port_text then PortNumber portRemote
                else PortString port_text |}] /\
  connects (handleTCPOutBound addressRemote portRemote rawClientData responseHeader
              host r1 r2) =
    [first;
     {| hostname := if is_empty host then addressRemote else host;
        port := PortNumber portRemote |}].
Proof.
  intros Hh Hp Hd Ht Hok Hin first.
  assert (Hretry : delivered_nothing r1 = true)
    by (unfold delivered_nothing; now rewrite Hok, Hin).
  split.
  - destruct (handleTCPOutBound_connections addressRemote portRemote rawClientData
                responseHeader (host ++ String d (port_text ++ tail)) r1 r2)
      as [-> _].
    rewrite Hretry. unfold retry_target, hint_host, hint_port.
    rewrite (before_delimiter_field host (String d (port_text ++ tail)) Hh Hd).
    rewrite (after_delimiter_field host d _ Hh Hd).
    now rewrite (before_delimiter_field port_text tail Hp Ht).
  - destruct (handleTCPOutBound_connections addressRemote portRemote rawClientData
                responseHeader host r1 r2) as [-> _].
    rewrite Hretry. unfold retry_target, hint_host, hint_port.
    pose proof (before_delimiter_field host "" Hh I) as Hb.
    rewrite string_append_nil_r in Hb.
    now rewrite Hb, (after_delimiter_none host Hh).
Qed.

(** ** Hex text *)

Lemma arrayBufferToHex_cons (x : byte) (buffer : ArrayBuffer) :
  arrayBufferToHex (x :: buffer) =
  (padStart (toString16 (Byte.to_N x)) 2 "0" ++ arrayBufferToHex buffer)%string.
Proof.
  unfold arrayBufferToHex. destruct buffer as [|y ys]; [|reflexivity].
  cbn [map String.concat]. now rewrite string_append_nil_r.
Qed.

Lemma hexToBytes_hex_byte (x : byte) (s : string) :
  hexToBytes (padStart (toString16 (Byte.to_N x)) 2 "0" ++ s) =
  match hexToBytes s with Some bytes => Some (x :: bytes) | None => None end.
Proof. destruct x; reflexivity. Qed.

(** X9: [arrayBufferToHex] writes two characters per byte, and the bytes
    can be read back from its text as pairs of lowercase hex digits. *)
Theorem arrayBufferToHex_round_trip (buffer : ArrayBuffer) :
  hexToBytes (arrayBufferToHex buffer) = Some buffer /\
  String.length (arrayBufferToHex buffer) = (2 * List.length buffer)%nat.
Proof.
  split; [|apply length_arrayBufferToHex].
  induction buffer as [|x xs IH]; [reflexivity|].
  now rewrite arrayBufferToHex_cons, hexToBytes_hex_byte, IH.
Qed.

(** ** Early data *)

Lemma list_ind3 {A : Type} (P : list A -> Prop) :
  P [] -> (forall a, P [a]) -> (forall a b, P [a; b]) ->
  (forall a b c l, P l -> P (a :: b :: c :: l)) ->
  forall l, P l.
Proof.
  intros H0 H1 H2 H3. fix IH 1.
  intros [|a [|b [|c l]]]; [exact H0 | apply H1 | apply H2 | apply H3, IH].
Qed.

(** A property of the numbers below 64 holds when it holds of each. *)
Lemma below_64 (P : N -> bool) :
  forallb P (map N.of_nat (seq 0 64)) = true ->
  forall n, n < 64 -> P n = true.
Proof.
  intros H n Hn. rewrite forallb_forall in H. apply H.
  apply in_map_iff. exists (N.to_nat n). split; [lia|].
  apply in_seq. lia.
Qed.

Lemma base64_sextets_below (bytes : list byte) :
  Forall (fun n => n < 64) (base64_sextets bytes).
Proof.
  induction bytes as [|a|a b|a b c l IH] using list_ind3; cbn [base64_sextets].
  - constructor.
  - pose proof (Byte.to_N_bounded a).
    repeat constructor; zify; Z.to_euclidean_division_equations; lia.
  - pose proof (Byte.to_N_bounded a). pose proof (Byte.to_N_bounded b).
    repeat constructor; zify; Z.to_euclidean_division_equations; lia.
  - pose proof (Byte.to_N_bounded a). pose proof (Byte.to_N_bounded b).
    pose proof (Byte.to_N_bounded c).
    repeat (constructor; [zify; Z.to_euclidean_division_equations; lia|]).
    exact IH.
Qed.

Lemma byte_of_to_N (a : byte) (n : N) : n = Byte.to_N a -> byte_of n = a.
Proof. intros ->. unfold byte_of. now rewrite Byte.of_to_N. Qed.

Lemma base64_bytes_sextets (bytes : list byte) :
  base64_bytes (base64_sextets bytes) = bytes.
Proof.
  induction bytes as [|a|a b|a b c l IH] using list_ind3;
    cbn [base64_sextets base64_bytes].
  - reflexivity.
  - pose proof (Byte.to_N_bounded a).
    f_equal. apply byte_of_to_N. zify; Z.to_euclidean_division_equations; lia.
  - pose proof (Byte.to_N_bounded a). pose proof (Byte.to_N_bounded b).
    f_equal; [|f_equal]; apply byte_of_to_N;
      zify; Z.to_euclidean_division_equations; lia.
  - pose proof (Byte.to_N_bounded a). pose proof (Byte.to_N_bounded b).
    pose proof (Byte.to_N_bounded c).
    rewrite IH.
    f_equal; [|f_equal; [|f_equal]]; apply byte_of_to_N;
      zify; Z.to_euclidean_division_equations; lia.
Qed.

Lemma length_base64_sextets (bytes : list byte) :
  Nat.modulo (List.length (base64_sextets bytes)) 4 <> 1%nat /\
  (bytes <> [] -> base64_sextets bytes <> []).
Proof.
  split.
  - induction bytes as [|a|a b|a b c l IH] using list_ind3;
      cbn [base64_sextets List.length]; try (cbn; discriminate).
    intros H. apply IH.
    replace (S (S (S (S (List.length (base64_sextets l))))))
      with (List.length (base64_sextets l) + 1 * 4)%nat in H by lia.
    now rewrite Nat.Div0.mod_add in H.
  - destruct bytes as [|a [|b [|c l]]]; cbn; intros H; congruence.
Qed.

Lemma list_ascii_of_replaceAll (c d : ascii) (s : string) :
  list_ascii_of_string (replaceAll c d s) =
  map (fun x => if Ascii.eqb x c then d else x) (list_ascii_of_string s).
Proof. induction s as [|x s IH]; cbn; [reflexivity | now rewrite IH]. Qed.

Lemma reads_back_all (c62 c63 : ascii) :
  (c62 = "-"%char /\ c63 = "_"%char) \/ (c62 = "+"%char /\ c63 = "/"%char) ->
  forall n, n < 64 -> reads_back c62 c63 n = true.
Proof.
  intros [[-> ->] | [-> ->]]; apply below_64; vm_compute; reflexivity.
Qed.

Section Alphabet.
Variables c62 c63 : ascii.
Hypothesis Hc : (c62 = "-"%char /\ c63 = "_"%char) \/ (c62 = "+"%char /\ c63 = "/"%char).

Let written (sextets : list N) : list ascii :=
  map normal (map (base64_char c62 c63) sextets).

Lemma written_filter (sextets : list N) :
  Forall (fun n => n < 64) sextets ->
  filter (fun c => negb (is_ascii_whitespace c)) (written sextets) = written sextets /\
  Forall (fun c => Ascii.eqb c "=" = false) (written sextets) /\
  base64_values (written sextets) = Some sextets.
Proof.
  induction 1 as [|n l Hn _ (IHf & IHe & IHv)]; [repeat split; constructor|].
  pose proof (reads_back_all c62 c63 Hc n Hn) as R.
  unfold reads_back in R. fold (normal (base64_char c62 c63 n)) in R.
  apply andb_true_iff in R as [R Rv]. apply andb_true_iff in R as [Rw Re].
  subst written. cbn [map filter base64_values] in *.
  rewrite Rw, IHf.
  split; [reflexivity|]. split.
  - constructor; [now apply negb_true_iff | assumption].
  - destruct (base64_value _) as [v|]; [|discriminate].
    apply N.eqb_eq in Rv. subst v. now rewrite IHv.
Qed.
End Alphabet.

Lemma strip_padding_none (l : list ascii) :
  Forall (fun c => Ascii.eqb c "=" = false) l -> strip_padding l = l.
Proof.
  intros H. unfold strip_padding.
  destruct (rev l) as [|c1 r] eqn:E; [reflexivity|].
  assert (Hin : In c1 l) by (apply in_rev; rewrite E; now left).
  rewrite Forall_forall in H. now rewrite (H c1 Hin).
Qed.

Lemma strip_padding_one (l : list ascii) :
  Forall (fun c => Ascii.eqb c "=" = false) l ->
  strip_padding (l ++ ["="%char]) = l.
Proof.
  intros H. unfold strip_padding. rewrite rev_app_distr. cbn [rev app].
  change (Ascii.eqb "=" "=") with true. cbv iota.
  destruct (rev l) as [|c2 r'] eqn:E.
  - apply (f_equal (@rev ascii)) in E. rewrite rev_involutive in E. now subst.
  - assert (Hin : In c2 l) by (apply in_rev; rewrite E; now left).
    rewrite Forall_forall in H. rewrite (H c2 Hin), <- E. apply rev_involutive.
Qed.

Lemma strip_padding_two (l : list ascii) :
  strip_padding (l ++ ["="%char; "="%char]) = l.
Proof.
  unfold strip_padding. rewrite rev_app_distr. cbn [rev app].
  change (Ascii.eqb "=" "=") with true. cbv iota. apply rev_involutive.
Qed.

Lemma atob_written (sextets : list N) (c62 c63 : ascii) (k : nat) :
  (c62 = "-"%char /\ c63 = "_"%char) \/ (c62 = "+"%char /\ c63 = "/"%char) ->
  Forall (fun n => n < 64) sextets ->
  Nat.modulo (List.length sextets) 4 <> 1%nat ->
  (k = 0%nat \/
   (sextets <> [] /\ (k <= 2)%nat /\
    Nat.modulo (List.length sextets + k) 4 = 0%nat)) ->
  atob (string_of_list_ascii
          (map normal (map (base64_char c62 c63) sextets ++ repeat "="%char k))) =
  Some (base64_bytes sextets).
Proof.
  intros Hc Hs Hm Hk. unfold atob.
  rewrite list_ascii_of_string_of_list_ascii, map_app, filter_app.
  destruct (written_filter c62 c63 Hc sextets Hs) as (Hf & He & Hv).
  rewrite Hf.
  assert (Hpad : filter (fun c => negb (is_ascii_whitespace c))
                   (map normal (repeat "="%char k)) = repeat "="%char k).
  { clear. induction k as [|k IH]; [reflexivity|]. cbn [repeat map filter].
    change (negb (is_ascii_whitespace (normal "="))) with true. cbv iota.
    change (normal "=") with "="%char. now rewrite IH. }
  rewrite Hpad.
  set (chars := map normal (map (base64_char c62 c63) sextets)) in *.
  assert (Hlen : List.length chars = List.length sextets)
    by (subst chars; now rewrite !length_map).
  assert (Hstrip :
    (if Nat.eqb (Nat.modulo (List.length (chars ++ repeat "="%char k)) 4) 0
     then strip_padding (chars ++ repeat "="%char k)
     else (chars ++ repeat "="%char k)%list) = chars).
  { destruct Hk as [-> | (Hne & Hk2 & Hmod)].
    - cbn [repeat]. rewrite app_nil_r, strip_padding_none by assumption.
      now destruct (Nat.eqb _ _).
    - rewrite length_app, repeat_length, Hlen, Hmod. cbn [Nat.eqb].
      destruct k as [|[|[|k]]]; [| | |lia].
      + cbn [repeat]. rewrite app_nil_r. now apply strip_padding_none.
      + now apply strip_padding_one.
      + apply strip_padding_two. }
  rewrite Hstrip, Hlen.
  destruct (Nat.eqb_spec (Nat.modulo (List.length sextets) 4) 1); [contradiction|].
  now rewrite Hv.
Qed.

Lemma string_of_normal (s : string) :
  replaceAll "_" "/" (replaceAll "-" "+" s) =
  string_of_list_ascii (map normal (list_ascii_of_string s)).
Proof.
  induction s as [|x s IH]; [reflexivity|].
  cbn [replaceAll list_ascii_of_string map string_of_list_ascii].
  now rewrite IH.
Qed.

Lemma is_empty_string_of_list (l : list ascii) :
  l <> [] -> is_empty (string_of_list_ascii l) = false.
Proof. destruct l; [congruence | reflexivity]. Qed.

(** X10: early data written in URL-safe base64 without padding, or in
    standard base64 with padding, is decoded to the bytes that were
    encoded, without error. *)
Theorem early_data_round_trip (bytes : list byte) :
  bytes <> [] ->
  base64ToArrayBuffer (base64url_encode bytes) =
    {| earlyData := Some bytes; error := None |} /\
  base64ToArrayBuffer (base64_encode bytes) =
    {| earlyData := Some bytes; error := None |}.
Proof.
  intros Hne.
  destruct (length_base64_sextets bytes) as [Hm Hs]. specialize (Hs Hne).
  pose proof (base64_sextets_below bytes) as Hb.
  split; unfold base64ToArrayBuffer, base64url_encode, base64_encode.
  - rewrite is_empty_string_of_list
      by (destruct (base64_sextets bytes); [congruence | discriminate]).
    rewrite string_of_normal, list_ascii_of_string_of_list_ascii.
    pose proof (atob_written (base64_sextets bytes) "-" "_" 0
                  (or_introl (conj eq_refl eq_refl)) Hb Hm (or_introl eq_refl)) as A.
    cbn [repeat] in A. rewrite app_nil_r in A.
    now rewrite A, base64_bytes_sextets.
  - rewrite is_empty_string_of_list
      by (destruct (base64_sextets bytes); [congruence | discriminate]).
    rewrite string_of_normal, list_ascii_of_string_of_list_ascii, length_map.
    set (n := List.length (base64_sextets bytes)) in *.
    rewrite (atob_written (base64_sextets bytes) "+" "/" _
               (or_intror (conj eq_refl eq_refl)) Hb Hm).
    + now rewrite base64_bytes_sextets.
    + right. split; [assumption|]. fold n.
      pose proof (Nat.mod_upper_bound n 4 ltac:(discriminate)).
      destruct (Nat.modulo n 4) as [|[|[|[|m]]]] eqn:En;
        [| contradiction | | | lia].
      * change ((4 - 0) mod 4)%nat with 0%nat. split; [lia|].
        now rewrite Nat.add_0_r.
      * change ((4 - 2) mod 4)%nat with 2%nat. split; [lia|].
        rewrite <- Nat.Div0.add_mod_idemp_l, En. reflexivity.
      * change ((4 - 3) mod 4)%nat with 1%nat. split; [lia|].
        rewrite <- Nat.Div0.add_mod_idemp_l, En. reflexivity.
Qed.

(** ** Shuffling *)

Lemma assign_spec {A : Type} (array : list A) (i : nat) (v : A) :
  (i < List.length array)%nat ->
  exists array',
    assign array i v = Some array' /\
    List.length array' = List.length array /\
    forall k, nth_error array' k = if Nat.eqb k i then Some v else nth_error array k.
Proof.
  revert i. induction array as [|x rest IH]; intros i Hi; [cbn in Hi; lia|].
  destruct i as [|i].
  - exists (v :: rest). repeat split. intros [|k]; reflexivity.
  - destruct (IH i) as (rest' & E & L & N); [cbn in Hi; lia|].
    exists (x :: rest'). cbn [assign]. rewrite E. split; [reflexivity|].
    split; [cbn; now rewrite L|].
    intros [|k]; [reflexivity | apply N].
Qed.

Lemma swap_spec {A : Type} (array : list A) (i j : nat) :
  (i < List.length array)%nat -> (j < List.length array)%nat ->
  exists array',
    swap array i j = Some array' /\
    List.length array' = List.length array /\
    Permutation array array'.
Proof.
  intros Hi Hj. unfold swap.
  destruct (nth_error array j) as [aj|] eqn:Ej;
    [|apply nth_error_None in Ej; lia].
  destruct (nth_error array i) as [ai|] eqn:Ei;
    [|apply nth_error_None in Ei; lia].
  destruct (assign_spec array i aj Hi) as (a1 & E1 & L1 & N1).
  destruct (assign_spec a1 j ai) as (a2 & E2 & L2 & N2); [lia|].
  exists a2. rewrite E1, E2. split; [reflexivity|]. split; [lia|].
  apply Permutation_nth_error. split; [lia|].
  exists (fun k => if Nat.eqb k j then i else if Nat.eqb k i then j else k).
  split.
  - intros x y.
    destruct (Nat.eqb_spec x j), (Nat.eqb_spec x i),
             (Nat.eqb_spec y j), (Nat.eqb_spec y i); lia.
  - intros k. rewrite N2, N1.
    destruct (Nat.eqb_spec k j) as [->|]; [now rewrite Ei|].
    destruct (Nat.eqb_spec k i) as [->|]; [now rewrite Ej | reflexivity].
Qed.

Section Shuffle.
Context {A : Type}.
Variable floor_random : nat -> nat -> nat.
Hypothesis floor_random_below :
  forall k n, (0 < n)%nat -> (floor_random k n < n)%nat.

Lemma shuffle_from_spec (currentIndex k : nat) (array : list A) :
  (currentIndex <= List.length array)%nat ->
  exists array',
    shuffle_from floor_random currentIndex k array = Some array' /\
    Permutation array array'.
Proof.
  revert k array. induction currentIndex as [|c IH]; intros k array Hc.
  - exists array. split; [reflexivity | apply Permutation_refl].
  - cbn [shuffle_from].
    pose proof (floor_random_below k (S c) ltac:(lia)) as Hr.
    destruct (swap_spec array c (floor_random k (S c))) as (a1 & E1 & L1 & P1);
      [lia | lia |].
    rewrite E1.
    destruct (IH (S k) a1) as (a2 & E2 & P2); [lia|].
    exists a2. split; [assumption | now apply Permutation_trans with a1].
Qed.

(** X11: when every [Math.floor(Math.random() * n)] is below [n],
    [shuffleArray] never reads or writes outside the array and leaves it a
    permutation of what it was. *)
Theorem shuffleArray_permutes (array : list A) :
  exists shuffled,
    shuffleArray floor_random array = Some shuffled /\
    Permutation array shuffled /\
    List.length shuffled = List.length array.
Proof.
  destruct (shuffle_from_spec (List.length array) 0 array (le_n _))
    as (shuffled & E & P).
  exists shuffled. split; [exact E|]. split; [exact P|].
  symmetry. now apply Permutation_length.
Qed.
End Shuffle.

Lemma shuffleArray_permutes_witness :
  exists shuffled,
    shuffleArray (fun k n => Nat.modulo (k + 1) n) [1; 2; 3; 4] = Some shuffled /\
    Permutation [1; 2; 3; 4] shuffled /\
    List.length shuffled = 4%nat.
Proof.
  apply (shuffleArray_permutes (fun k n => Nat.modulo (k + 1) n)).
  intros k n Hn. apply Nat.mod_upper_bound. lia.
Defined.

(** ** The proxy list *)

Lemma PRX_BANK_URL_not_empty (env : option string) :
  is_empty (PRX_BANK_URL env) = false.
Proof.
  unfold PRX_BANK_URL, or_default.
  destruct env as [s|]; [|reflexivity].
  destruct (is_empty s) eqn:E; [reflexivity | exact E].
Qed.

Lemma or_default_not_empty (x : option string) (d : string) :
  is_empty d = false -> is_empty (or_default x d) = false.
Proof.
  intros Hd. unfold or_default. destruct x as [s|]; [|exact Hd].
  destruct (is_empty s) eqn:E; [exact Hd | exact E].
Qed.

Lemma parseEntry_fields (entry : string) (p : Prx) :
  parseEntry entry = Some p ->
  is_empty (prxIP p) = false /\ is_empty (prxPort p) = false /\
  is_empty (country p) = false /\ is_empty (org p) = false.
Proof.
  unfold parseEntry.
  destruct (is_empty (or_default (nth_error _ 0) "")) eqn:E0; [discriminate|].
  destruct (is_empty (or_default (nth_error _ 1) "")) eqn:E1; [discriminate|].
  cbn [orb]. intros [= <-]. cbn [prxIP prxPort country org].
  repeat split; try assumption; now apply or_default_not_empty.
Qed.

Lemma in_filter_some {A : Type} (l : list (option A)) (x : A) :
  In x (filter_some l) <-> In (Some x) l.
Proof.
  induction l as [|[y|] l IH]; cbn [filter_some In].
  - tauto.
  - rewrite IH. split; intros [H|H]; auto; left; congruence.
  - rewrite IH. split; [auto | intros [H|H]; [discriminate | exact H]].
Qed.

Lemma parsePrxList_fields (text : string) (p : Prx) :
  In p (parsePrxList text) ->
  is_empty (prxIP p) = false /\ is_empty (prxPort p) = false /\
  is_empty (country p) = false /\ is_empty (org p) = false.
Proof.
  unfold parsePrxList. rewrite in_filter_some, in_map_iff.
  intros (entry & E & _). now apply parseEntry_fields with entry.
Qed.

(** X12: [getPrxList] never raises (the bank URL has a default, so "No
    proxy bank URL provided!" cannot occur).  A non-empty answer is what the
    cache holds afterwards, and every later call returns it without
    fetching, whatever [env] and the network have become.  An empty answer
    leaves the cache empty, so that the next call fetches again. *)
Theorem getPrxList_cache (cachedPrxList : list Prx) (env : option string)
    (fetch : string -> fetched) :
  exists list cache',
    getPrxList cachedPrxList env fetch = (Normal list, cache') /\
    (list <> [] ->
     cache' = list /\
     forall env' fetch', getPrxList cache' env' fetch' = (Normal list, cache')) /\
    (list = [] ->
     cache' = [] /\
     forall env' fetch' text,
       fetch' (PRX_BANK_URL env') = Response true text ->
       getPrxList cache' env' fetch' =
       (Normal (parsePrxList text), parsePrxList text)).
Proof.
  assert (Hkeep : forall l : list Prx, l <> [] ->
            forall env' fetch', getPrxList l env' fetch' = (Normal l, l)).
  { intros [|p l] Hl env' fetch'; [congruence | reflexivity]. }
  assert (Hfetch : forall env' fetch' text,
            fetch' (PRX_BANK_URL env') = Response true text ->
            getPrxList [] env' fetch' =
            (Normal (parsePrxList text), parsePrxList text)).
  { intros env' fetch' text H. unfold getPrxList.
    now rewrite PRX_BANK_URL_not_empty, H. }
  destruct cachedPrxList as [|p l].
  - unfold getPrxList. rewrite PRX_BANK_URL_not_empty.
    destruct (fetch (PRX_BANK_URL env)) as [|[|] text].
    + exists [], []. split; [reflexivity|]. split; [congruence | auto].
    + exists (parsePrxList text), (parsePrxList text).
      split; [reflexivity|].
      split; [intros Hne; split; [reflexivity | now apply Hkeep]|].
      intros E. split; [exact E|]. rewrite E. exact Hfetch.
    + exists [], []. split; [reflexivity|]. split; [congruence | auto].
  - exists (p :: l), (p :: l). split; [reflexivity|].
    split; [intros H; split; [reflexivity | now apply Hkeep] | discriminate].
Qed.

(** ** The text of the list *)

Lemma split_on_from_free (c : ascii) (s piece : string) :
  free_of c s = true -> split_on_from c s piece = [(piece ++ s)%string].
Proof.
  revert piece. induction s as [|x s IH]; intros piece H; cbn in *.
  - now rewrite string_append_nil_r.
  - apply andb_true_iff in H as [Hx Hs]. apply negb_true_iff in Hx.
    rewrite Hx, IH, string_append_assoc by assumption. reflexivity.
Qed.

Lemma split_on_from_first (c : ascii) (a b piece : string) :
  free_of c a = true ->
  split_on_from c (a ++ String c b) piece = (piece ++ a)%string :: split_on c b.
Proof.
  revert piece. induction a as [|x a IH]; intros piece H; cbn in *.
  - now rewrite Ascii.eqb_refl, string_append_nil_r.
  - apply andb_true_iff in H as [Hx Ha]. apply negb_true_iff in Hx.
    rewrite Hx, IH, string_append_assoc by assumption. reflexivity.
Qed.

Lemma free_of_append (c : ascii) (a b : string) :
  free_of c (a ++ b) = free_of c a && free_of c b.
Proof.
  induction a as [|x a IH]; cbn; [reflexivity|]. now rewrite IH, andb_assoc.
Qed.

Lemma is_empty_append_l (s t : string) :
  is_empty s = false -> is_empty (s ++ t) = false.
Proof. destruct s; [discriminate | reflexivity]. Qed.

Lemma parseEntry_line (p : Prx) :
  plain_entry p -> parseEntry (entry_line p) = Some p.
Proof.
  intros ((Ei & Ci & _ & Ti) & (Ep & Cp & _ & Tp) & (Ec & Cc & _ & Tc) &
          (Eo & Co & _ & To)).
  unfold parseEntry, entry_line, split_on.
  cbn [append].
  rewrite (split_on_from_first "," (prxIP p)) by assumption.
  unfold split_on. rewrite (split_on_from_first "," (prxPort p)) by assumption.
  unfold split_on. rewrite (split_on_from_first "," (country p)) by assumption.
  unfold split_on. rewrite split_on_from_free by assumption.
  cbn [append map nth_error or_default]. rewrite Ti, Tp, Tc, To.
  rewrite Ei, Ep, Ec, Eo. cbv iota. rewrite Ei, Ep. cbn [orb]. now destruct p.
Qed.

Lemma entry_line_plain (p : Prx) :
  plain_entry p ->
  is_empty (entry_line p) = false /\ free_of "010" (entry_line p) = true.
Proof.
  intros ((Ei & _ & Ni & _) & (_ & _ & Np & _) & (_ & _ & Nc & _) & (_ & _ & No & _)).
  unfold entry_line. split; [now apply is_empty_append_l|].
  rewrite !free_of_append, Ni, Np, Nc, No. reflexivity.
Qed.

Lemma split_lines (ps : list Prx) :
  Forall plain_entry ps -> ps <> [] ->
  split_on "010" (list_text ps) = map entry_line ps.
Proof.
  intros H. induction H as [|p ps Hp Hps IH]; [congruence|]. intros _.
  destruct (entry_line_plain p Hp) as [_ Hfree].
  unfold list_text, split_on in *. cbn [map String.concat].
  destruct ps as [|q ps].
  - now rewrite split_on_from_free.
  - change (map entry_line (q :: ps)) with (entry_line q :: map entry_line ps) in *.
    cbn [append]. rewrite split_on_from_first by assumption.
    unfold split_on. rewrite IH by discriminate. reflexivity.
Qed.

(** X13: every entry [getPrxList] parses has a non-empty address, port,
    country and organisation; a text of lines [ip,port,country,org] with
    plain fields parses to exactly those entries, in order; and a line
    [ip,port] gets the country "Unknown" and the organisation
    "Unknown Org". *)
Theorem parsePrxList_spec :
  (forall (text : string) (p : Prx),
     In p (parsePrxList text) ->
     is_empty (prxIP p) = false /\ is_empty (prxPort p) = false /\
     is_empty (country p) = false /\ is_empty (org p) = false) /\
  (forall ps : list Prx,
     Forall plain_entry ps -> parsePrxList (list_text ps) = ps) /\
  (forall ip p : string,
     plain_field ip -> plain_field p ->
     parseEntry (ip ++ "," ++ p) =
     Some {| prxIP := ip; prxPort := p; country := "Unknown"; org := "Unknown Org" |}).
Proof.
  split; [exact parsePrxList_fields|]. split.
  - intros ps H. destruct ps as [|p0 ps0] eqn:Eps; [reflexivity|]. rewrite <- Eps in *.
    unfold parsePrxList. rewrite split_lines by (assumption || (subst; discriminate)).
    clear Eps. induction H as [|p ps Hp _ IH]; [reflexivity|].
    cbn [map filter]. destruct (entry_line_plain p Hp) as [-> _].
    cbn [negb map filter_some]. now rewrite (parseEntry_line p Hp), IH.
  - intros ip p (Ei & Ci & _ & Ti) (Ep & Cp & _ & Tp).
    unfold parseEntry, split_on. cbn [append].
    rewrite (split_on_from_first "," ip) by assumption.
    unfold split_on. rewrite split_on_from_free by assumption.
    cbn [append map nth_error or_default]. rewrite Ti, Tp, Ei, Ep. cbv iota.
    rewrite Ei, Ep. reflexivity.
Qed.

(** ** Instances of the further properties *)

Lemma sniffed_trojan_decoding_witness :
  readHorseHeader trojan_7f_frame =
  Normal (HasError "Unsupported Trojan command: 127").
Proof.
  exact (proj2 (sniffed_trojan_decoding trojan_7f_frame eq_refl) eq_refl).
Defined.

Lemma routed_chunks_in_order_witness :
  let s := {| hostname := "10.0.0.1"; port := PortNumber 80 |} in
  pipeTo "example.org-8443" {| isDNS := false; remoteSocketWrapper := Some s |}
    [one_step [x41] (silent EndClosed 1) (silent EndClosed 1);
     one_step [x42] refusing refusing;
     one_step [x43] (silent EndClosed 1) (silent EndClosed 1)] =
  [SocketWrite s [x41]; SocketWrite s [x42]; WsClose].
Proof.
  exact (routed_chunks_in_order "example.org-8443"
           {| isDNS := false;
              remoteSocketWrapper :=
                Some {| hostname := "10.0.0.1"; port := PortNumber 80 |} |}
           {| hostname := "10.0.0.1"; port := PortNumber 80 |}
           [one_step [x41] (silent EndClosed 1) (silent EndClosed 1);
            one_step [x42] refusing refusing;
            one_step [x43] (silent EndClosed 1) (silent EndClosed 1)]
           eq_refl eq_refl).
Defined.

Lemma dns_tunnel_forwards_whole_chunks_witness :
  socket_writes
    (websocketHandler "example.org-8443"
       [one_step ss_dns_frame (answering [x52]) (silent EndClosed 1);
        one_step [x51] refusing refusing]) =
  [(dns_socket, ss_dns_frame); (dns_socket, [x51])].
Proof.
  exact (proj1 (proj2 (dns_tunnel_forwards_whole_chunks "example.org-8443"
           (one_step ss_dns_frame (answering [x52]) (silent EndClosed 1))
           [one_step [x51] refusing refusing]
           {| addressRemote := "8.8.8.8"; addressType := Some 1;
              portRemote := 53; rawClientData := [x51];
              version := None; isUDP := true |} eq_refl eq_refl eq_refl))).
Defined.

Lemma decoded_header_invariants_witness :
  (80 < 65536) /\ false = (80 =? 53).
Proof.
  pose proof (decoded_header_invariants Shadowsocks ss_scenario_frame
                {| addressRemote := "10.0.0.1"; addressType := Some 1;
                   portRemote := 80; rawClientData := [x48; x49];
                   version := None; isUDP := false |} eq_refl) as (_ & Hp & Hu).
  split; [exact Hp | exact (Hu eq_refl)].
Defined.

Lemma retry_follows_hint_witness :
  connects (handleTCPOutBound "1.2.3.4" 443 [x48; x49] None
              "my-proxy.example.com-443" (silent EndClosed 1) (silent EndClosed 1)) =
  [{| hostname := "1.2.3.4"; port := PortNumber 443 |};
   {| hostname := "my"; port := PortString "proxy.example.com" |}].
Proof.
  exact (proj1 (retry_follows_hint "1.2.3.4" 443 [x48; x49] None
                  "my" "proxy.example.com" "-443" "-"
                  (silent EndClosed 1) (silent EndClosed 1)
                  eq_refl eq_refl eq_refl eq_refl eq_refl eq_refl)).
Defined.

Lemma early_data_round_trip_witness :
  base64ToArrayBuffer "-_8" = {| earlyData := Some [xfb; xff]; error := None |} /\
  base64ToArrayBuffer "+/8=" = {| earlyData := Some [xfb; xff]; error := None |}.
Proof.
  apply (early_data_round_trip [xfb; xff]). discriminate.
Defined.

Lemma getPrxList_cache_witness :
  getPrxList [prx_a] (Some "https://example.org/list.txt"%string)
    (fun _ => FetchRaises) = (Normal [prx_a], [prx_a]).
Proof.
  destruct (getPrxList_cache [] None (fun _ => Response true (list_text [prx_a])))
    as (list & cache' & E & Hkeep & _).
  vm_compute in E. injection E as <- <-.
  exact (proj2 (Hkeep ltac:(discriminate)) _ _).
Defined.

Lemma parsePrxList_spec_witness :
  parsePrxList (list_text [prx_a; prx_b]) = [prx_a; prx_b] /\
  parseEntry "1.2.3.4,443" =
  Some {| prxIP := "1.2.3.4"; prxPort := "443";
          country := "Unknown"; org := "Unknown Org" |}.
Proof.
  destruct parsePrxList_spec as (_ & Hlist & Hdefault).
  split.
  - apply Hlist. repeat constructor.
  - apply (Hdefault "1.2.3.4"%string "443"%string); repeat split.
Defined.
